(** * Go1 standalone runner: keyboard command bookkeeping and start-up glue

    A shallow embedding of [isaac_ws/go1_standalone.py].  The simulator, the
    scene and the [Unitree] robot object are external: every call into them
    is recorded in a log, and the runner's own attributes are an explicit
    state threaded through a small state/exception/log monad.

    Numbers are the program's own: Python floats and NumPy [float64] are
    IEEE-754 binary64, modelled by Rocq's primitive floats, so that
    [1.8 + 1.8] and [5.4 - 1.8] round the way they do in the program. *)

From Stdlib Require Import ZArith PrimFloat SpecFloat FloatOps.
From stdpp Require Import gmap strings list fin_maps.

Set Warnings "-inexact-float,-register-all".
Set Default Proof Using "Type".

Open Scope string_scope.
Open Scope list_scope.

(** ** Python values *)

(** The values stored in the runner's attributes: [int], [float] (also
    [numpy.float64]) and [bool]. *)
Inductive pyval : Type :=
  | PyInt (n : Z)
  | PyFloat (x : float)
  | PyBool (b : bool).

(** [v is False]: identity with the singleton [False].  The integer [0] is a
    different object. *)
Definition is_False (v : pyval) : bool :=
  match v with
  | PyBool false => true
  | _ => false
  end.

(** [v == 0]. *)
Definition py_eq_zero (v : pyval) : bool :=
  match v with
  | PyInt n => (n =? 0)%Z
  | PyFloat x => PrimFloat.eqb x 0%float
  | PyBool b => negb b
  end.

(** Integer to binary64, rounding to nearest even. *)
Definition float_of_Z (n : Z) : float :=
  SF2Prim (binary_normalize 53 1024 n 0 false).

(** The [float64] NumPy makes of a list element when the list is turned into
    an array to be added to a [float64] array. *)
Definition np_float64 (v : pyval) : float :=
  match v with
  | PyInt n => float_of_Z n
  | PyFloat x => x
  | PyBool b => if b then 1%float else 0%float
  end.

(** ** NumPy element-wise operations on one-dimensional arrays *)

(** Shapes [(n,)] and [(m,)] broadcast when they are equal or one of them is
    [1]; otherwise NumPy raises [ValueError] ([None] here). *)
Definition np_broadcast (op : float → float → float) (a b : list float)
  : option (list float) :=
  if decide (length a = length b) then Some (zip_with op a b)
  else match a, b with
       | [x], _ => Some (op x <$> b)
       | _, [y] => Some ((λ x, op x y) <$> a)
       | _, _ => None
       end.

(** [l[0:3] op= np.array(v)]: the slice is read, the list has no in-place
    numeric operator so NumPy's reflected operator computes a new array from
    the slice and [v], and the array is assigned back over the slice.  A
    slice assignment replaces the slice by all the elements of its right-hand
    side, whatever their number. *)
Definition slice3_iop (op : float → float → float) (l : list pyval)
    (v : list float) : option (list pyval) :=
  r ← np_broadcast op (np_float64 <$> take 3 l) v;
  Some ((PyFloat <$> r) ++ drop 3 l).

(** ** Waypoint data *)

(** What [json.load] returns.  [JObject] lists an object's members in file
    order; the dictionary made of them keeps the last value of a repeated
    key. *)
Inductive json : Type :=
  | JNull
  | JBool (b : bool)
  | JInt (n : Z)
  | JFloat (x : float)
  | JString (s : string)
  | JArray (items : list json)
  | JObject (members : list (string * json)).

(** A NumPy array, by its elements along the first axis, in order; the
    element type NumPy chooses for them is not modelled. *)
Inductive ndarray : Type :=
  | NdArray (elems : list json).

Definition ndarray_size (a : ndarray) : nat :=
  match a with NdArray elems => length elems end.

(** ** The external world *)

(** Calls into the robot object, in the order they are made. *)
Inductive robot_call : Type :=
  | SwitchMode
  | Advance (step_size : float) (command : list pyval) (path_follow : bool).

Inductive exn : Type :=
  | ValueError
  | IndexError
  | AttributeError
  | TypeError
  | KeyError
  | FileNotFoundError
  | OSError
  | JSONDecodeError.

Inductive outcome (A : Type) : Type :=
  | Returned (a : A)
  | Raised (e : exn).
Arguments Returned {A} a.
Arguments Raised {A} e.

(** ** Keyboard events *)

(** [carb.input.KeyboardEventType]. *)
Inductive KeyboardEventType : Type :=
  | KEY_PRESS
  | KEY_RELEASE
  | KEY_REPEAT
  | CHAR.

#[global] Instance KeyboardEventType_eq_dec : EqDecision KeyboardEventType.
Proof. solve_decision. Defined.

(** An event, by the two things the callback reads: [event.type] and
    [event.input.name]. *)
Record KeyboardEvent : Type := mkEvent {
  type : KeyboardEventType;
  input_name : string;
}.

(** ** The runner *)

Record Go1Runner : Type := mkRunner {
  _enter_toggled : pyval;
  _base_command : list pyval;
  _event_flag : bool;
  _input_keyboard_mapping : gmap string (list float);
  (** set by [setup]; the attribute does not exist before *)
  _path_follow : option bool;
}.

Definition set_enter_toggled (v : pyval) (self : Go1Runner) : Go1Runner :=
  mkRunner v (_base_command self) (_event_flag self)
           (_input_keyboard_mapping self) (_path_follow self).

Definition set_base_command (l : list pyval) (self : Go1Runner) : Go1Runner :=
  mkRunner (_enter_toggled self) l (_event_flag self)
           (_input_keyboard_mapping self) (_path_follow self).

Definition set_event_flag (b : bool) (self : Go1Runner) : Go1Runner :=
  mkRunner (_enter_toggled self) (_base_command self) b
           (_input_keyboard_mapping self) (_path_follow self).

Definition set_path_follow (b : bool) (self : Go1Runner) : Go1Runner :=
  mkRunner (_enter_toggled self) (_base_command self) (_event_flag self)
           (_input_keyboard_mapping self) (Some b).

(** *** The monad of the runner's methods

    A method reads and writes the runner, may call the robot, and returns or
    raises.  What was written and called before an exception stays. *)
Module Method.

Record result (A : Type) : Type := mkResult {
  value : outcome A;
  self_after : Go1Runner;
  calls : list robot_call;
}.
Arguments mkResult {A} value self_after calls.
Arguments value {A} r.
Arguments self_after {A} r.
Arguments calls {A} r.

Definition M (A : Type) : Type := Go1Runner → result A.

Definition ret {A} (a : A) : M A := λ self, mkResult (Returned a) self [].

Definition raise {A} (e : exn) : M A := λ self, mkResult (Raised e) self [].

Definition bind {A B} (m : M A) (k : A → M B) : M B := λ self,
  let r := m self in
  match value r with
  | Returned a =>
      let r' := k a (self_after r) in
      mkResult (value r') (self_after r') (calls r ++ calls r')
  | Raised e => mkResult (Raised e) (self_after r) (calls r)
  end.

Definition get {A} (field : Go1Runner → A) : M A := λ self,
  mkResult (Returned (field self)) self [].

Definition modify (f : Go1Runner → Go1Runner) : M unit := λ self,
  mkResult (Returned tt) (f self) [].

Definition call (c : robot_call) : M unit := λ self,
  mkResult (Returned tt) self [c].

Definition when (b : bool) (m : M unit) : M unit :=
  if b then m else ret tt.

Definition of_option {A} (e : exn) (o : option A) : M A :=
  match o with
  | Some a => ret a
  | None => raise e
  end.

End Method.

Import Method.

Declare Scope method_scope.
Delimit Scope method_scope with method.
Notation "'let*' x ':=' c 'in' k" := (bind c (λ x, k))
  (at level 10, x name, c at level 100, k at level 200) : method_scope.
Notation "c ';;;' k" := (bind c (λ _, k))
  (at level 100, k at level 200, right associativity) : method_scope.
Open Scope method_scope.

(** The key table built in [__init__]. *)
Definition keyboard_table : list (string * list float) :=
  [ ("NUMPAD_8", [1.8; 0.0; 0.0]);
    ("UP", [1.8; 0.0; 0.0]);
    ("NUMPAD_2", [-1.8; 0.0; 0.0]);
    ("DOWN", [-1.8; 0.0; 0.0]);
    ("NUMPAD_6", [0.0; -1.8; 0.0]);
    ("RIGHT", [0.0; -1.8; 0.0]);
    ("NUMPAD_4", [0.0; 1.8; 0.0]);
    ("LEFT", [0.0; 1.8; 0.0]);
    ("NUMPAD_7", [0.0; 0.0; 1.0]);
    ("N", [0.0; 0.0; 1.0]);
    ("NUMPAD_9", [0.0; 0.0; -1.0]);
    ("M", [0.0; 0.0; -1.0]) ]%float.

(** The attributes [__init__] leaves on the runner (the world, the scene and
    the robot it creates are external). *)
Definition __init__ : Go1Runner := {|
  _enter_toggled := PyInt 0;
  _base_command := [PyFloat 0.0; PyFloat 0.0; PyFloat 0.0; PyInt 0];
  _event_flag := false;
  _input_keyboard_mapping := list_to_map keyboard_table;
  _path_follow := None;
|}.

(** [setup]: registers the two callbacks (external) and sets [_path_follow]
    from whether a waypoint list was given. *)
Definition setup (way_points : option (list ndarray)) (self : Go1Runner)
  : Go1Runner :=
  match way_points with
  | None => set_path_follow false self
  | Some _ => set_path_follow true self
  end.

(** [on_physics_step]. *)
Definition on_physics_step (step_size : float) : M unit :=
  (let* flag := get _event_flag in
   when flag (call SwitchMode;;; modify (set_event_flag false)));;;
  let* command := get _base_command in
  let* pf := get _path_follow in
  let* path_follow := of_option AttributeError pf in
  call (Advance step_size command path_follow).

(** [_sub_keyboard_event]. *)
Definition _sub_keyboard_event (event : KeyboardEvent) : M bool :=
  modify (set_event_flag false);;;
  let name := input_name event in
  (match type event with
   | KEY_PRESS =>
       (let* mapping := get _input_keyboard_mapping in
        match mapping !! name with
        | Some v =>
            let* command := get _base_command in
            let* command' := of_option ValueError
                               (slice3_iop PrimFloat.add command v) in
            modify (set_base_command command');;;
            modify (set_event_flag true)
        | None => ret tt
        end);;;
       let* toggled := get _enter_toggled in
       when (bool_decide (name = "ENTER") && is_False toggled)
         (modify (set_enter_toggled (PyBool true));;;
          let* command := get _base_command in
          let* last := of_option IndexError (command !! 3%nat) in
          (if py_eq_zero last
           then modify (set_base_command (<[3%nat := PyInt 1]> command))
           else modify (set_base_command (<[3%nat := PyInt 0]> command)));;;
          modify (set_event_flag true))
   | KEY_RELEASE =>
       (let* mapping := get _input_keyboard_mapping in
        match mapping !! name with
        | Some v =>
            let* command := get _base_command in
            let* command' := of_option ValueError
                               (slice3_iop PrimFloat.sub command v) in
            modify (set_base_command command');;;
            modify (set_event_flag true)
        | None => ret tt
        end);;;
       when (bool_decide (name = "ENTER"))
         (modify (set_enter_toggled (PyBool false)))
   | _ => ret tt
   end);;;
  ret true.

#[global] Instance KeyboardEvent_eq_dec : EqDecision KeyboardEvent.
Proof. solve_decision. Defined.

Definition press (k : string) : KeyboardEvent := mkEvent KEY_PRESS k.
Definition release (k : string) : KeyboardEvent := mkEvent KEY_RELEASE k.

(** ** Running the simulation

    After [setup] the simulator delivers keyboard events and physics steps to
    the two callbacks, one at a time. *)
Inductive input : Type :=
  | Keyboard (event : KeyboardEvent)
  | PhysicsStep (step_size : float).

Definition deliver (i : input) : M unit :=
  match i with
  | Keyboard event => let* _ := _sub_keyboard_event event in ret tt
  | PhysicsStep step_size => on_physics_step step_size
  end.

Definition after (i : input) (self : Go1Runner) : Go1Runner :=
  self_after (deliver i self).

(** The runner after the inputs of [t], first to last. *)
Definition run (t : list input) (self : Go1Runner) : Go1Runner :=
  fold_left (λ s i, after i s) t self.

(** The runner as [main] hands it to the simulator. *)
Definition started (way_points : option (list ndarray)) : Go1Runner :=
  setup way_points __init__.

(** NumPy's element-wise [==] on two vectors of one length, all true. *)
Definition vec_eqb (u v : list float) : bool :=
  bool_decide (length u = length v) &&
  forallb (λ p, PrimFloat.eqb p.1 p.2) (zip u v).

(** A vector along axis [i] of magnitude [mag]: numerically [mag] or [-mag]
    at index [i] and zero elsewhere. *)
Definition along_axis (i : nat) (mag : float) (v : list float) : bool :=
  bool_decide (length v = 3%nat) &&
  forallb (λ p, if decide (p.1 = i)
                then PrimFloat.eqb (PrimFloat.abs p.2) mag
                else PrimFloat.eqb p.2 0%float)
          (zip (seq 0 3) v).

Definition one_axis_vector (v : list float) : bool :=
  along_axis 0 1.8%float v || along_axis 1 1.8%float v
  || along_axis 2 1.0%float v.

Definition opposite_keys : list (string * string) :=
  [ ("UP", "DOWN"); ("LEFT", "RIGHT"); ("N", "M");
    ("NUMPAD_8", "NUMPAD_2"); ("NUMPAD_4", "NUMPAD_6");
    ("NUMPAD_7", "NUMPAD_9") ].

(** ** Well-formed runners *)

(** The base command as [__init__] shapes it: three floats and an integer
    that is 0 or 1. *)
Definition command_shape (l : list pyval) : Prop :=
  ∃ a b c d, l = [PyFloat a; PyFloat b; PyFloat c; PyInt d]
             ∧ (d = 0 ∨ d = 1)%Z.

Record well_formed (self : Go1Runner) : Prop := {
  wf_mapping : _input_keyboard_mapping self = list_to_map keyboard_table;
  wf_command : command_shape (_base_command self);
  wf_path_follow : is_Some (_path_follow self);
}.

(** ** Observations on a run *)

Definition is_switch (c : robot_call) : bool :=
  match c with SwitchMode => true | _ => false end.

Definition is_advance (c : robot_call) : bool :=
  match c with Advance _ _ _ => true | _ => false end.

(** Whether a physics step taken now switches the robot's mode. *)
Definition switches (step_size : float) (self : Go1Runner) : bool :=
  existsb is_switch (calls (on_physics_step step_size self)).

(** Whether the keyboard callback leaves the event flag set. *)
Definition sets_flag (event : KeyboardEvent) (self : Go1Runner) : bool :=
  _event_flag (self_after (_sub_keyboard_event event self)).

(** All the robot calls of a run, in order. *)
Fixpoint calls_of (t : list input) (self : Go1Runner) : list robot_call :=
  match t with
  | [] => []
  | i :: t' => calls (deliver i self) ++ calls_of t' (after i self)
  end.

(** The number of keyboard events of a run that left the event flag set. *)
Fixpoint flag_setters (t : list input) (self : Go1Runner) : nat :=
  match t with
  | [] => 0
  | Keyboard event :: t' =>
      (if sets_flag event self then 1 else 0)
      + flag_setters t' (after (Keyboard event) self)
  | PhysicsStep step_size :: t' =>
      flag_setters t' (after (PhysicsStep step_size) self)
  end.

(** Whether some keyboard event delivered since the previous physics step
    (or since the start, when there was none) left the event flag set when
    it returned.  [seen] is the answer for the inputs already delivered. *)
Fixpoint flag_set_since_step (seen : bool) (t : list input) (self : Go1Runner)
  : bool :=
  match t with
  | [] => seen
  | Keyboard event :: t' =>
      flag_set_since_step (seen || sets_flag event self) t'
        (after (Keyboard event) self)
  | PhysicsStep step_size :: t' =>
      flag_set_since_step false t' (after (PhysicsStep step_size) self)
  end.

(** [command[3]]. *)
Definition mode_toggle (self : Go1Runner) : option pyval :=
  _base_command self !! 3%nat.

Definition is_enter_release (i : input) : bool :=
  match i with
  | Keyboard event => bool_decide (event = release "ENTER")
  | PhysicsStep _ => false
  end.

Definition is_enter_press (i : input) : bool :=
  match i with
  | Keyboard event => bool_decide (event = press "ENTER")
  | PhysicsStep _ => false
  end.

(** The value [command[3]] flips to: 1 from 0, else 0. *)
Definition flipped (v : pyval) : pyval :=
  if py_eq_zero v then PyInt 1 else PyInt 0.

(** ** A keyboard that behaves

    A physical key alternates presses and releases, starting with a press.
    [held] is the set of keys that are down. *)
Fixpoint alternating (held : gset string) (t : list input) : bool :=
  match t with
  | [] => true
  | Keyboard event :: t' =>
      match type event with
      | KEY_PRESS =>
          bool_decide (input_name event ∉ held)
          && alternating ({[input_name event]} ∪ held) t'
      | KEY_RELEASE =>
          bool_decide (input_name event ∈ held)
          && alternating (held ∖ {[input_name event]}) t'
      | _ => alternating held t'
      end
  | PhysicsStep _ :: t' => alternating held t'
  end.

(** The keys down after [t]. *)
Fixpoint held_after (held : gset string) (t : list input) : gset string :=
  match t with
  | [] => held
  | Keyboard event :: t' =>
      match type event with
      | KEY_PRESS => held_after ({[input_name event]} ∪ held) t'
      | KEY_RELEASE => held_after (held ∖ {[input_name event]}) t'
      | _ => held_after held t'
      end
  | PhysicsStep _ :: t' => held_after held t'
  end.

(** 1 when [key] is down, else 0. *)
Definition down (held : gset string) (key : string) : Z :=
  if decide (key ∈ held) then 1 else 0.

(** The binary64 value of [n] steps of size [s], for [n] from -2 to 2 (two
    keys push each axis either way). *)
Definition level (s : float) (n : Z) : float :=
  match n with
  | 0%Z => 0
  | 1%Z => s
  | 2%Z => s + s
  | (-1)%Z => - s
  | (-2)%Z => - (s + s)
  | _ => 0
  end%float.

(** Elements 0..2 of the base command when exactly the keys of [held] are
    down. *)
Definition command_of_held (held : gset string) : list pyval :=
  [ PyFloat (level 1.8 (down held "NUMPAD_8" + down held "UP"
                        - down held "NUMPAD_2" - down held "DOWN"));
    PyFloat (level 1.8 (down held "NUMPAD_4" + down held "LEFT"
                        - down held "NUMPAD_6" - down held "RIGHT"));
    PyFloat (level 1.0 (down held "NUMPAD_7" + down held "N"
                        - down held "NUMPAD_9" - down held "M")) ].

(** ** Reading the waypoint file *)

#[global] Instance outcome_ret : MRet outcome := λ A a, Returned a.
#[global] Instance outcome_bind : MBind outcome := λ A B k m,
  match m with
  | Returned a => k a
  | Raised e => Raised e
  end.

(** The value of the last member named [key]. *)
Fixpoint members_get (key : string) (members : list (string * json))
  : option json :=
  match members with
  | [] => None
  | (k, v) :: rest =>
      match members_get key rest with
      | Some v' => Some v'
      | None => if decide (k = key) then Some v else None
      end
  end.

(** [w[key]] with a string key: only a dictionary has one. *)
Definition json_getitem (w : json) (key : string) : outcome json :=
  match w with
  | JObject members =>
      match members_get key members with
      | Some v => Returned v
      | None => Raised KeyError
      end
  | _ => Raised TypeError
  end.

(** [for w in data]: a list yields its items, a dictionary its keys in the
    order they first appear, a string its characters; nothing else can be
    iterated. *)
Definition json_iter (data : json) : outcome (list json) :=
  match data with
  | JArray items => Returned items
  | JObject members =>
      Returned (JString <$> reverse (remove_dups (reverse (members.*1))))
  | JString s =>
      Returned ((λ c, JString (String c EmptyString)) <$> String.list_ascii_of_string s)
  | _ => Raised TypeError
  end.

Definition is_nested (v : json) : bool :=
  match v with JArray _ => true | _ => false end.

(** [np.array] belongs to NumPy and is a parameter here.  What is assumed
    of it is the one case the waypoint records need: a list of scalars gives
    the one-dimensional array of these elements.  Nothing is assumed for
    nested lists, where NumPy's answer depends on their shapes and on its
    version. *)
Definition array_builder : Type := list json → outcome ndarray.

Definition builds_scalar_arrays (np_array : array_builder) : Prop :=
  ∀ elems, existsb is_nested elems = false →
           np_array elems = Returned (NdArray elems).

(** One builder that meets the assumption, for the examples, which apply it
    to scalars only. *)
Definition scalar_array_builder : array_builder :=
  λ elems, Returned (NdArray elems).

(** One turn of the loop: the array appended for [waypoint]. *)
Definition waypoint_array (np_array : array_builder) (waypoint : json)
  : outcome ndarray :=
  x ← json_getitem waypoint "x";
  y ← json_getitem waypoint "y";
  rad ← json_getitem waypoint "rad";
  np_array [x; y; rad].

(** The loop: the arrays appended, in order, or the first exception. *)
Fixpoint collect_poses (np_array : array_builder) (items : list json)
  : outcome (list ndarray) :=
  match items with
  | [] => Returned []
  | waypoint :: rest =>
      pose ← waypoint_array np_array waypoint;
      poses ← collect_poses np_array rest;
      Returned (pose :: poses)
  end.

(** What the world answers to [open(path)] followed by [json.load(file)]:
    [open] raises, or returns a file from which [json.load] raises or
    returns a value. *)
Definition filesystem : Type := string → outcome (outcome json).

(** The body of the [try] block after the first [print]. *)
Definition load_waypoints (np_array : array_builder) (fs : filesystem)
    (path : string) : outcome (list ndarray) :=
  loaded ← fs path;
  waypoint_data ← loaded;
  items ← json_iter waypoint_data;
  collect_poses np_array items.

(** *** Waypoint records, in the words of the specification

    A waypoint file is a JSON list of records with members [x], [y] and
    [rad]; each record stands for the pose [[x, y, rad]]. *)

(** The three members of a record, when it has them. *)
Definition record_fields (r : json) : option (json * json * json) :=
  match r with
  | JObject members =>
      x ← members_get "x" members;
      y ← members_get "y" members;
      rad ← members_get "rad" members;
      Some (x, y, rad)
  | _ => None
  end.

(** A record whose three members are there and are scalars. *)
Definition is_waypoint_record (r : json) : bool :=
  match record_fields r with
  | Some (x, y, rad) => negb (is_nested x || is_nested y || is_nested rad)
  | None => false
  end.

(** The pose of a record: the array of its [x], [y] and [rad], in this
    order. *)
Definition spec_waypoint_pose (r : json) : ndarray :=
  match record_fields r with
  | Some (x, y, rad) => NdArray [x; y; rad]
  | None => NdArray []
  end.

(** ** Building the runner

    The whole of [Go1Runner.__init__]: the calls it makes into the simulator
    and the attributes it leaves.  The simulator's answers are arguments:
    what [get_assets_root_path()] returns, whether the prim at
    [/World/Warehouse] is valid, and the directory of the script. *)

Inductive scene_call : Type :=
  | NewWorld (stage_units_in_meters physics_dt rendering_dt : float)
  | LogError (text : string)
  | DefinePrim (prim_path kind : string)
  | AddReference (prim_path asset_path : string)
  | AddRobot (prim_path name usd_path : string) (position : list float)
             (physics_dt : float) (model : string)
             (way_points : option (list ndarray)) (use_ros : bool)
  | ResetWorld.

(** [a.endswith("/")]. *)
Fixpoint ends_with_slash (a : string) : bool :=
  match a with
  | EmptyString => false
  | String c EmptyString => bool_decide (String c EmptyString = "/")
  | String _ rest => ends_with_slash rest
  end.

(** [os.path.join(a, b)] (POSIX) for a relative [b]. *)
Definition path_join (a b : string) : string :=
  if decide (a = "") then b
  else if ends_with_slash a then a +:+ b
  else a +:+ "/" +:+ b.

(** [root + suffix] where [root] may be [None]. *)
Definition str_add (root : option string) (suffix : string) : outcome string :=
  match root with
  | Some r => Returned (r +:+ suffix)
  | None => Raised TypeError
  end.

(** The warehouse scene: spawned only when its prim is not there yet. *)
Definition spawn_scene (assets_root_path : option string) (prim_valid : bool)
  : outcome unit * list scene_call :=
  if prim_valid then (Returned tt, [])
  else
    match str_add assets_root_path
            "/Isaac/Environments/Simple_Warehouse/warehouse.usd" with
    | Returned asset_path =>
        (Returned tt,
         [DefinePrim "/World/Warehouse" "Xform";
          AddReference "/World/Warehouse" asset_path])
    | Raised e => (Raised e, [DefinePrim "/World/Warehouse" "Xform"])
    end.

(** [Go1Runner(physics_dt, render_dt, way_points)]. *)
Definition construct (physics_dt render_dt : float)
    (way_points : option (list ndarray))
    (assets_root_path : option string) (prim_valid : bool)
    (current_script_directory : string)
  : outcome Go1Runner * list scene_call :=
  let world := [NewWorld 1.0 physics_dt render_dt] in
  let complaint :=
    match assets_root_path with
    | None => [LogError "Could not find Isaac Sim assets folder"]
    | Some _ => []
    end in
  match spawn_scene assets_root_path prim_valid with
  | (Raised e, scene) => (Raised e, world ++ complaint ++ scene)
  | (Returned _, scene) =>
      let robot_usd_path :=
        path_join current_script_directory "Assets/Robots/go1.usd" in
      (Returned __init__,
       world ++ complaint ++ scene
       ++ [AddRobot "/World/go1" "go1" robot_usd_path [0; 0; 0.40]%float
             physics_dt "go1" way_points true;
           ResetWorld])
  end.

Definition is_add_robot (c : scene_call) : bool :=
  match c with AddRobot _ _ _ _ _ _ _ _ => true | _ => false end.

Definition is_add_reference (c : scene_call) : bool :=
  match c with AddReference _ _ => true | _ => false end.

(** ** The simulation loop

    [Go1Runner.run]: [while simulation_app.is_running():
    self._world.step(render=True)].  [is_running] lists the answers the
    application gives, one per test of the loop condition. *)

Inductive loop_end : Type :=
  | Stopped (unasked : list bool)
  | StillRunning.

(** The [render] argument of each [world.step] made, and how the loop stands
    when the answers are used up. *)
Fixpoint run_loop (is_running : list bool) : list bool * loop_end :=
  match is_running with
  | [] => ([], StillRunning)
  | true :: rest =>
      let r := run_loop rest in (true :: r.1, r.2)
  | false :: rest => ([], Stopped rest)
  end.

(** ** [main] *)

(** What [main] does to the outside, in order.  [Construct], [Setup] and
    [Run] stand for the calls [Go1Runner(...)], [runner.setup(...)] and
    [runner.run()]. *)
Inductive action : Type :=
  | Print (text : string)
  | AppClose
  | AppUpdate
  | Construct (physics_dt render_dt : float)
              (way_points : option (list ndarray))
  | Setup (way_points : option (list ndarray))
  | WorldReset
  | Run.

(** The simulator's answers during one execution of [main]: what
    [get_assets_root_path()] returns, whether the prim at [/World/Warehouse]
    is valid, the directory of the script, and the successive answers of
    [simulation_app.is_running()]. *)
Record simulator : Type := mkSimulator {
  assets_root : option string;
  warehouse_valid : bool;
  script_directory : string;
  running : list bool;
}.

(** How an execution of [main] stands when the simulator's answers are used
    up: it has returned or raised, or it is still inside the loop of
    [run]. *)
Inductive ending : Type :=
  | Ended (result : outcome unit)
  | InRunLoop.

Definition physics_downtime : float := (1 / 400.0)%float.

(** Both branches after the waypoints are known: build the runner, which
    may raise; then update, set up, reset twice and run; close once [run]
    has returned. *)
Definition launch (way_points : option (list ndarray)) (sim : simulator)
  : ending * list action :=
  let physics_dt := physics_downtime in
  let render_dt := (16 * physics_downtime)%float in
  let runner :=
    construct physics_dt render_dt way_points (assets_root sim)
      (warehouse_valid sim) (script_directory sim) in
  match runner.1 with
  | Raised e => (Ended (Raised e), [Construct physics_dt render_dt way_points])
  | Returned _ =>
      let upto_run :=
        [ Construct physics_dt render_dt way_points; AppUpdate;
          Setup way_points; WorldReset; WorldReset; Run ] in
      match (run_loop (running sim)).2 with
      | Stopped _ => (Ended (Returned tt), upto_run ++ [AppClose])
      | StillRunning => (InRunLoop, upto_run)
      end
  end.

(** The first [print] of the waypoint branch, before what follows. *)
Definition printed (path : string) (r : ending * list action)
  : ending * list action :=
  (r.1, Print path :: r.2).

(** [main], given [args.waypoint].  An empty string is false in [if]. *)
Definition main (np_array : array_builder) (waypoint : option string)
    (fs : filesystem) (sim : simulator) : ending * list action :=
  match waypoint with
  | Some path =>
      if decide (path = "") then launch None sim
      else match load_waypoints np_array fs path with
           | Returned waypoint_pose =>
               printed path (launch (Some waypoint_pose) sim)
           | Raised FileNotFoundError =>
               (Ended (Returned tt),
                [Print path; Print "error file not found, ending"; AppClose])
           | Raised e => (Ended (Raised e), [Print path])
           end
  | None => launch None sim
  end.

(** Whether the constructor raises: no assets root and no warehouse prim. *)
Definition constructor_fails (sim : simulator) : bool :=
  bool_decide (assets_root sim = None) && negb (warehouse_valid sim).

Definition is_setup (a : action) : bool :=
  match a with Setup _ => true | _ => false end.

(** ** More observations on a run *)

Definition is_physics_step (i : input) : bool :=
  match i with PhysicsStep _ => true | Keyboard _ => false end.

(** The number of ENTER KEY_PRESS events of a run. *)
Definition enter_presses (t : list input) : nat :=
  length (List.filter is_enter_press t).

(** The path-follow flag an [advance] call carries. *)
Definition advance_path_follow (c : robot_call) : option bool :=
  match c with
  | Advance _ _ path_follow => Some path_follow
  | SwitchMode => None
  end.

Definition is_construct (a : action) : bool :=
  match a with Construct _ _ _ => true | _ => false end.

Definition is_app_close (a : action) : bool :=
  match a with AppClose => true | _ => false end.

(** Whether [args.waypoint] counts as given: not [None] and not empty. *)
Definition waypoint_given (waypoint : option string) : bool :=
  match waypoint with
  | Some path => bool_decide (path ≠ "")
  | None => false
  end.

(** What [_enter_toggled] holds after [n] ENTER presses of a keyboard that
    behaves, with ENTER down or up: the first press leaves the integer 0 of
    [__init__] in place. *)
Definition gate_after (n : nat) (enter_down : bool) : pyval :=
  if enter_down
  then (if decide (n = 1%nat) then PyInt 0 else PyBool true)
  else (if decide (n = 0%nat) then PyInt 0 else PyBool false).

(** The fourth element after [n] such presses: the first one does not count. *)
Definition mode_after (n : nat) : pyval :=
  PyInt (Z.of_nat (pred n mod 2)).

(** * Properties *)

(** ** Frame rules of the method monad *)

(** [keeps f m]: method [m] leaves the part [f] of the runner as it was,
    whether it returns or raises. *)
Definition keeps {A B} (f : Go1Runner → B) (m : M A) : Prop :=
  ∀ self, f (self_after (m self)) = f self.

Section Keeps.
Context {B : Type} (f : Go1Runner → B).

Lemma keeps_ret {A} (a : A) : keeps f (ret a).
Proof. by intros self. Qed.

Lemma keeps_raise {A} (e : exn) : keeps f (@raise A e).
Proof. by intros self. Qed.

Lemma keeps_get {A} (g : Go1Runner → A) : keeps f (get g).
Proof. by intros self. Qed.

Lemma keeps_call (c : robot_call) : keeps f (call c).
Proof. by intros self. Qed.

Lemma keeps_of_option {A} (e : exn) (o : option A) : keeps f (of_option e o).
Proof. destruct o; [apply keeps_ret | apply keeps_raise]. Qed.

Lemma keeps_modify (g : Go1Runner → Go1Runner) :
  (∀ self, f (g self) = f self) → keeps f (modify g).
Proof. intros Hg self. apply Hg. Qed.

Lemma keeps_bind {A C} (m : M A) (k : A → M C) :
  keeps f m → (∀ a, keeps f (k a)) → keeps f (bind m k).
Proof.
  intros Hm Hk self. unfold bind.
  destruct (value (m self)) as [a|e]; simpl; [|apply Hm].
  rewrite Hk. apply Hm.
Qed.

Lemma keeps_when (b : bool) (m : M unit) : keeps f m → keeps f (when b m).
Proof. destruct b; [done | intros _; apply keeps_ret]. Qed.
End Keeps.

Create HintDb frame discriminated.
#[local] Hint Resolve keeps_ret keeps_raise keeps_get keeps_call
  keeps_of_option : frame.

(** Walks down a method body, one construct at a time. *)
Ltac frame_step :=
  lazymatch goal with
  | |- keeps _ (bind _ _) => apply keeps_bind; [|intros ?]
  | |- keeps _ (when _ _) => apply keeps_when
  | |- keeps _ (modify _) => apply keeps_modify; intros []; reflexivity
  | |- keeps _ (match ?x with _ => _ end) => destruct x
  | |- keeps _ (let _ := _ in _) => cbv zeta
  | |- _ => solve [auto with frame]
  end.

Ltac frame :=
  unfold _sub_keyboard_event, on_physics_step; repeat frame_step.

Lemma keyboard_keeps_mapping (event : KeyboardEvent) :
  keeps _input_keyboard_mapping (_sub_keyboard_event event).
Proof. frame. Qed.

Lemma keyboard_keeps_path_follow (event : KeyboardEvent) :
  keeps _path_follow (_sub_keyboard_event event).
Proof. frame. Qed.

Lemma physics_keeps_mapping (step_size : float) :
  keeps _input_keyboard_mapping (on_physics_step step_size).
Proof. frame. Qed.

Lemma physics_keeps_path_follow (step_size : float) :
  keeps _path_follow (on_physics_step step_size).
Proof. frame. Qed.

Lemma physics_keeps_base_command (step_size : float) :
  keeps _base_command (on_physics_step step_size).
Proof. frame. Qed.

Lemma physics_keeps_enter_toggled (step_size : float) :
  keeps _enter_toggled (on_physics_step step_size).
Proof. frame. Qed.

Lemma deliver_keeps_mapping (i : input) :
  keeps _input_keyboard_mapping (deliver i).
Proof.
  destruct i; simpl; [|apply physics_keeps_mapping].
  apply keeps_bind; [apply keyboard_keeps_mapping | intros; apply keeps_ret].
Qed.

Lemma run_keeps_mapping (t : list input) (self : Go1Runner) :
  _input_keyboard_mapping (run t self) = _input_keyboard_mapping self.
Proof.
  revert self. induction t as [|i t IH]; intros self; [done|].
  simpl. rewrite IH. apply deliver_keeps_mapping.
Qed.

(** ** The key table *)

Lemma started_mapping (way_points : option (list ndarray)) :
  _input_keyboard_mapping (started way_points) = list_to_map keyboard_table.
Proof. by destruct way_points. Qed.

Lemma table_lookup (key : string) (v : list float) :
  (list_to_map keyboard_table : gmap string (list float)) !! key = Some v →
  (key, v) ∈ keyboard_table.
Proof. apply elem_of_list_to_map_2. Qed.

(** Case analysis on a membership in a list written out in full. *)
Ltac elem_cases H :=
  repeat (apply elem_of_cons in H as [H|H]); [..|by apply elem_of_nil in H].

(** C7: the key table is the same after any setup and any sequence of
    keyboard events and physics steps as the one [__init__] built; it has
    exactly 12 keys; each key's vector has 3 elements of which exactly one is
    nonzero, of magnitude 1.8 on axes 0 and 1 and 1.0 on axis 2; and the
    vectors of opposite keys (UP/DOWN, LEFT/RIGHT, N/M, NUMPAD_8/NUMPAD_2,
    NUMPAD_4/NUMPAD_6, NUMPAD_7/NUMPAD_9) are each other's negation. *)
Theorem keyboard_mapping_static_table
    (way_points : option (list ndarray)) (t : list input) :
  let mapping := _input_keyboard_mapping (run t (started way_points)) in
  mapping = _input_keyboard_mapping __init__
  ∧ size mapping = 12%nat
  ∧ (∀ key v, mapping !! key = Some v →
       length v = 3%nat ∧ one_axis_vector v = true)
  ∧ (∀ a b, (a, b) ∈ opposite_keys →
       ∃ u v, mapping !! a = Some u ∧ mapping !! b = Some v
              ∧ vec_eqb u (PrimFloat.opp <$> v) = true
              ∧ vec_eqb v (PrimFloat.opp <$> u) = true).
Proof.
  intros mapping. subst mapping.
  rewrite run_keeps_mapping, started_mapping.
  split; [done|]. split; [by vm_compute|]. split.
  - intros key v H%table_lookup. unfold keyboard_table in H.
    elem_cases H; injection H as -> ->; by vm_compute.
  - intros a b H. unfold opposite_keys in H.
    elem_cases H; injection H as -> ->;
      (eexists _, _; split; [by vm_compute|]; split; [by vm_compute|];
       by vm_compute).
Qed.

(** ** What each callback does, case by case *)

(** Unfolds a method down to the runner's fields, leaving table lookups,
    key comparisons and list operations as they are. *)
Ltac method_unfold :=
  cbv [_sub_keyboard_event on_physics_step bind modify get when of_option
       call ret raise set_event_flag set_base_command set_enter_toggled
       value self_after calls type input_name press release
       _enter_toggled _base_command _event_flag _input_keyboard_mapping
       _path_follow app].

Lemma slice3_iop_four (op : float → float → float) e0 e1 e2 d x y z :
  slice3_iop op [e0; e1; e2; d] [x; y; z]
  = Some [PyFloat (op (np_float64 e0) x); PyFloat (op (np_float64 e1) y);
          PyFloat (op (np_float64 e2) z); d].
Proof. reflexivity. Qed.

Lemma keyboard_other_type (event : KeyboardEvent) (self : Go1Runner) :
  type event ≠ KEY_PRESS → type event ≠ KEY_RELEASE →
  _sub_keyboard_event event self
  = mkResult (Returned true) (set_event_flag false self) [].
Proof.
  intros Hp Hr. destruct event as [[] name]; cbv [type] in Hp, Hr;
    try done; reflexivity.
Qed.

Lemma keyboard_unmapped (event : KeyboardEvent) (self : Go1Runner) :
  _input_keyboard_mapping self !! input_name event = None →
  input_name event ≠ "ENTER" →
  _sub_keyboard_event event self
  = mkResult (Returned true) (set_event_flag false self) [].
Proof.
  intros Hm Hn. destruct event as [ty name], self as [tg bc fl m pf].
  cbv [_input_keyboard_mapping input_name] in Hm, Hn.
  destruct ty; method_unfold; rewrite ?Hm;
    rewrite ?bool_decide_eq_false_2 by done; reflexivity.
Qed.

Lemma press_mapped tg e0 e1 e2 d fl m pf (key : string) x y z :
  m !! key = Some [x; y; z] → key ≠ "ENTER" →
  _sub_keyboard_event (press key) (mkRunner tg [e0; e1; e2; d] fl m pf)
  = mkResult (Returned true)
      (mkRunner tg [PyFloat (np_float64 e0 + x); PyFloat (np_float64 e1 + y);
                    PyFloat (np_float64 e2 + z); d] true m pf) [].
Proof.
  intros Hm Hn. method_unfold. rewrite Hm, slice3_iop_four.
  rewrite bool_decide_eq_false_2 by done. reflexivity.
Qed.

Lemma release_mapped tg e0 e1 e2 d fl m pf (key : string) x y z :
  m !! key = Some [x; y; z] → key ≠ "ENTER" →
  _sub_keyboard_event (release key) (mkRunner tg [e0; e1; e2; d] fl m pf)
  = mkResult (Returned true)
      (mkRunner tg [PyFloat (np_float64 e0 - x); PyFloat (np_float64 e1 - y);
                    PyFloat (np_float64 e2 - z); d] true m pf) [].
Proof.
  intros Hm Hn. method_unfold. rewrite Hm, slice3_iop_four.
  rewrite bool_decide_eq_false_2 by done. reflexivity.
Qed.

Lemma press_enter tg bc d fl m pf :
  m !! "ENTER" = None → bc !! 3%nat = Some d →
  _sub_keyboard_event (press "ENTER") (mkRunner tg bc fl m pf)
  = if is_False tg
    then mkResult (Returned true)
           (mkRunner (PyBool true)
              (<[3%nat := if py_eq_zero d then PyInt 1 else PyInt 0]> bc)
              true m pf) []
    else mkResult (Returned true) (mkRunner tg bc false m pf) [].
Proof.
  intros Hm Hd. method_unfold. rewrite Hm.
  rewrite bool_decide_eq_true_2 by done.
  destruct (is_False tg); cbv [andb]; [|done].
  rewrite Hd. by destruct (py_eq_zero d).
Qed.

Lemma release_enter tg bc fl m pf :
  m !! "ENTER" = None →
  _sub_keyboard_event (release "ENTER") (mkRunner tg bc fl m pf)
  = mkResult (Returned true) (mkRunner (PyBool false) bc false m pf) [].
Proof.
  intros Hm. method_unfold. rewrite Hm.
  by rewrite bool_decide_eq_true_2 by done.
Qed.

Lemma physics_step_eq tg bc fl m pf (step_size : float) :
  on_physics_step step_size (mkRunner tg bc fl m (Some pf))
  = mkResult (Returned tt) (mkRunner tg bc false m (Some pf))
      ((if fl then [SwitchMode] else []) ++ [Advance step_size bc pf]).
Proof. method_unfold. by destruct fl. Qed.

(** ** Well-formed runners stay well-formed *)

(** Reads the fields of a runner or a result written out in full. *)
Ltac fields :=
  cbn [_enter_toggled _base_command _event_flag _input_keyboard_mapping
       _path_follow value self_after calls type input_name] in *.

Lemma table_entry (key : string) (v : list float) :
  (list_to_map keyboard_table : gmap string (list float)) !! key = Some v →
  key ≠ "ENTER" ∧ ∃ x y z, v = [x; y; z].
Proof.
  intros H%table_lookup. unfold keyboard_table in H.
  elem_cases H; injection H as -> ->; (split; [done | by eexists _, _, _]).
Qed.

Lemma enter_unmapped :
  (list_to_map keyboard_table : gmap string (list float)) !! "ENTER" = None.
Proof. by vm_compute. Qed.

(** Splits a keyboard event delivered to a runner whose table is the one of
    [__init__] and whose command is [[e0; e1; e2; d]] into the cases of the
    callback, rewriting the call by its equation in each. *)
Ltac keyboard_cases event Hm :=
  let ty := fresh "ty" in
  let name := fresh "name" in
  let v := fresh "v" in
  let E := fresh "E" in
  let Hn := fresh "Hn" in
  destruct event as [ty name];
  destruct (decide (ty = KEY_PRESS)) as [->|];
  [|destruct (decide (ty = KEY_RELEASE)) as [->|];
    [|rewrite keyboard_other_type by done]];
  [ match goal with
    | |- context [mkRunner _ _ _ ?m _] =>
        destruct (m !! name) as [v|] eqn:E
    end;
    [ pose proof E as Hn; rewrite Hm in Hn;
      apply table_entry in Hn as [Hn (?x & ?y & ?z & ->)];
      change (mkEvent KEY_PRESS name) with (press name);
      rewrite (press_mapped _ _ _ _ _ _ _ _ _ _ _ _ E Hn)
    | destruct (decide (name = "ENTER")) as [->|Hn];
      [ change (mkEvent KEY_PRESS "ENTER") with (press "ENTER");
        erewrite press_enter by (done || (rewrite Hm; exact enter_unmapped))
      | rewrite keyboard_unmapped by done ] ]
  | match goal with
    | |- context [mkRunner _ _ _ ?m _] =>
        destruct (m !! name) as [v|] eqn:E
    end;
    [ pose proof E as Hn; rewrite Hm in Hn;
      apply table_entry in Hn as [Hn (?x & ?y & ?z & ->)];
      change (mkEvent KEY_RELEASE name) with (release name);
      rewrite (release_mapped _ _ _ _ _ _ _ _ _ _ _ _ E Hn)
    | destruct (decide (name = "ENTER")) as [->|Hn];
      [ change (mkEvent KEY_RELEASE "ENTER") with (release "ENTER");
        rewrite release_enter by (rewrite Hm; exact enter_unmapped)
      | rewrite keyboard_unmapped by done ] ]
  | ].

Lemma started_well_formed (way_points : option (list ndarray)) :
  well_formed (started way_points).
Proof.
  destruct way_points; (split; fields; [done| |by eexists]);
    exists 0%float, 0%float, 0%float, 0%Z; auto.
Qed.

Lemma keyboard_well_formed (event : KeyboardEvent) (self : Go1Runner) :
  well_formed self →
  ∃ self', _sub_keyboard_event event self = mkResult (Returned true) self' []
           ∧ well_formed self'.
Proof.
  intros [Hm (a & b & c & d & Hc & Hd) Hp].
  destruct self as [tg bc fl m pf]; fields. subst bc.
  keyboard_cases event Hm.
  - eexists; split; [done|]. split; fields; [done| |done].
    eexists _, _, _, _. eauto.
  - destruct (is_False tg); (eexists; split; [done|]);
      (split; fields; [done| |done]).
    + destruct Hd as [-> | ->]; eexists _, _, _, _; eauto.
    + eexists _, _, _, _; eauto.
  - eexists; split; [done|]. split; fields; [done| |done].
    eexists _, _, _, _; eauto.
  - eexists; split; [done|]. split; fields; [done| |done].
    eexists _, _, _, _. eauto.
  - eexists; split; [done|]. split; fields; [done| |done].
    eexists _, _, _, _; eauto.
  - eexists; split; [done|]. split; fields; [done| |done].
    eexists _, _, _, _; eauto.
  - eexists; split; [done|]. split; fields; [done| |done].
    eexists _, _, _, _; eauto.
Qed.

Lemma physics_well_formed (step_size : float) (self : Go1Runner) :
  well_formed self →
  ∃ pf, _path_follow self = Some pf
        ∧ on_physics_step step_size self
          = mkResult (Returned tt) (set_event_flag false self)
              ((if _event_flag self then [SwitchMode] else [])
               ++ [Advance step_size (_base_command self) pf])
        ∧ well_formed (set_event_flag false self).
Proof.
  intros [Hm Hc [pf Hp]]. destruct self as [tg bc fl m pf']; fields.
  subst pf'. exists pf. split; [done|]. split; [apply physics_step_eq|].
  by split.
Qed.

Lemma after_keyboard (event : KeyboardEvent) (self : Go1Runner) :
  after (Keyboard event) self = self_after (_sub_keyboard_event event self).
Proof.
  unfold after, deliver, bind.
  by destruct (value (_sub_keyboard_event event self)).
Qed.

Lemma after_well_formed (i : input) (self : Go1Runner) :
  well_formed self → well_formed (after i self).
Proof.
  intros Hwf. destruct i as [event|step_size].
  - rewrite after_keyboard.
    destruct (keyboard_well_formed event self Hwf) as (self' & E & Hwf').
    by rewrite E.
  - unfold after, deliver.
    destruct (physics_well_formed step_size self Hwf) as (pf & _ & E & Hwf').
    by rewrite E.
Qed.

Lemma run_cons (i : input) (t : list input) (self : Go1Runner) :
  run (i :: t) self = run t (after i self).
Proof. reflexivity. Qed.

Lemma run_well_formed (t : list input) (self : Go1Runner) :
  well_formed self → well_formed (run t self).
Proof.
  revert self. induction t as [|i t IH]; intros self Hwf; [done|].
  rewrite run_cons. apply IH, after_well_formed, Hwf.
Qed.

Lemma reached_well_formed way_points (t : list input) :
  well_formed (run t (started way_points)).
Proof. apply run_well_formed, started_well_formed. Qed.

Lemma run_app (t1 t2 : list input) (self : Go1Runner) :
  run (t1 ++ t2) self = run t2 (run t1 self).
Proof. apply fold_left_app. Qed.

Lemma deliver_keeps_path_follow (i : input) : keeps _path_follow (deliver i).
Proof.
  destruct i; [|apply physics_keeps_path_follow].
  apply keeps_bind; [apply keyboard_keeps_path_follow|intros; apply keeps_ret].
Qed.

Lemma run_keeps_path_follow (t : list input) (self : Go1Runner) :
  _path_follow (run t self) = _path_follow self.
Proof.
  revert self. induction t as [|i t IH]; intros self; [done|].
  rewrite run_cons, IH. apply deliver_keeps_path_follow.
Qed.

Lemma started_path_follow (way_points : option (list ndarray)) :
  _path_follow (started way_points) = Some (bool_decide (is_Some way_points)).
Proof.
  destruct way_points.
  - by rewrite bool_decide_eq_true_2 by eauto.
  - by rewrite bool_decide_eq_false_2 by (by intros [? ?]).
Qed.

(** ** The base command keeps its shape *)

(** C4: the base command [__init__] builds has 4 elements, and so has the
    base command after any setup and any sequence of keyboard events and
    physics steps; each further keyboard event or physics step leaves the
    length as it is; the fourth element is always the integer 0 or 1. *)
Theorem base_command_four_elements
    (way_points : option (list ndarray)) (t : list input) (i : input) :
  let self := run t (started way_points) in
  length (_base_command __init__) = 4%nat
  ∧ length (_base_command self) = 4%nat
  ∧ length (_base_command (after i self)) = length (_base_command self)
  ∧ (_base_command self !! 3%nat = Some (PyInt 0)
     ∨ _base_command self !! 3%nat = Some (PyInt 1)).
Proof.
  intros self. split; [done|].
  assert (∀ s, well_formed s →
            length (_base_command s) = 4%nat
            ∧ (_base_command s !! 3%nat = Some (PyInt 0)
               ∨ _base_command s !! 3%nat = Some (PyInt 1))) as shape.
  { intros s [_ (a & b & c & d & -> & [-> | ->]) _]; auto. }
  pose proof (reached_well_formed way_points t) as Hwf. fold self in Hwf.
  destruct (shape _ Hwf) as [Hlen Hlast].
  destruct (shape _ (after_well_formed i _ Hwf)) as [Hlen' _].
  repeat split; [done|congruence|done].
Qed.

(** ** The physics callback *)

(** C2: a physics step, after any setup and any sequence of keyboard events
    and physics steps, returns normally having called the robot's [advance]
    exactly once, with the step size, the base command as it is at that
    moment (4 elements) and the path-follow flag chosen by [setup]. *)
Theorem physics_step_advances_once
    (way_points : option (list ndarray)) (t : list input) (step_size : float) :
  let self := run t (started way_points) in
  let r := on_physics_step step_size self in
  value r = Returned tt
  ∧ List.filter is_advance (calls r)
    = [Advance step_size (_base_command self)
         (bool_decide (is_Some way_points))]
  ∧ length (_base_command self) = 4%nat.
Proof.
  intros self r.
  pose proof (reached_well_formed way_points t) as Hwf. fold self in Hwf.
  destruct (physics_well_formed step_size self Hwf) as (pf & Hpf & E & _).
  assert (pf = bool_decide (is_Some way_points)) as ->.
  { unfold self in Hpf.
    rewrite run_keeps_path_follow, started_path_follow in Hpf. congruence. }
  subst r. rewrite E. fields. split; [done|]. split.
  - by destruct (_event_flag self).
  - by destruct Hwf as [_ (a & b & c & d & -> & _) _].
Qed.

(** ** Events that are none of the callback's business *)

Lemma keyboard_ignored (event : KeyboardEvent) (self : Go1Runner) :
  (_input_keyboard_mapping self !! input_name event = None
   ∧ input_name event ≠ "ENTER")
  ∨ (type event ≠ KEY_PRESS ∧ type event ≠ KEY_RELEASE) →
  _sub_keyboard_event event self
  = mkResult (Returned true) (set_event_flag false self) [].
Proof.
  intros [[Hm Hn] | [Hp Hr]];
    [by apply keyboard_unmapped | by apply keyboard_other_type].
Qed.

(** C10: after any setup and any sequence of inputs the keyboard callback
    returns [True] for every event; and for an event whose key is neither in
    the table nor ENTER, or whose type is neither KEY_PRESS nor KEY_RELEASE,
    it leaves the base command and [_enter_toggled] (and the table and the
    path-follow flag) as they were, leaves [_event_flag] at [False] and calls
    nothing on the robot. *)
Theorem keyboard_callback_frame
    (way_points : option (list ndarray)) (t : list input)
    (event : KeyboardEvent) :
  let self := run t (started way_points) in
  let r := _sub_keyboard_event event self in
  value r = Returned true
  ∧ ((_input_keyboard_mapping self !! input_name event = None
      ∧ input_name event ≠ "ENTER")
     ∨ (type event ≠ KEY_PRESS ∧ type event ≠ KEY_RELEASE) →
     _base_command (self_after r) = _base_command self
     ∧ _enter_toggled (self_after r) = _enter_toggled self
     ∧ _event_flag (self_after r) = false
     ∧ _input_keyboard_mapping (self_after r) = _input_keyboard_mapping self
     ∧ _path_follow (self_after r) = _path_follow self
     ∧ calls r = []).
Proof.
  intros self r. split.
  - destruct (keyboard_well_formed event self
                (reached_well_formed way_points t)) as (self' & E & _).
    subst r. by rewrite E.
  - intros H. subst r. rewrite (keyboard_ignored _ _ H).
    by destruct self.
Qed.

(** ** The ENTER gate *)

(** What any keyboard event does to the gate and to the fourth element. *)
Lemma keyboard_gate (event : KeyboardEvent) (self : Go1Runner) :
  well_formed self →
  let self' := self_after (_sub_keyboard_event event self) in
  (_enter_toggled self', mode_toggle self')
  = if bool_decide (event = press "ENTER") && is_False (_enter_toggled self)
    then (PyBool true, flipped <$> mode_toggle self)
    else if bool_decide (event = release "ENTER")
         then (PyBool false, mode_toggle self)
         else (_enter_toggled self, mode_toggle self).
Proof.
  intros [Hm (a & b & c & d & Hc & Hd) Hp].
  destruct self as [tg bc fl m pf]; fields. subst bc.
  keyboard_cases event Hm; fields; unfold press, release.
  - by rewrite !bool_decide_eq_false_2 by congruence.
  - rewrite bool_decide_eq_true_2 by done.
    destruct (is_False tg); cbv [andb]; fields; [done|].
    by rewrite bool_decide_eq_false_2.
  - by rewrite !bool_decide_eq_false_2 by congruence.
  - by rewrite !bool_decide_eq_false_2 by congruence.
  - rewrite bool_decide_eq_false_2 by done. cbv [andb].
    by rewrite bool_decide_eq_true_2.
  - by rewrite !bool_decide_eq_false_2 by congruence.
  - by rewrite !bool_decide_eq_false_2 by congruence.
Qed.

(** The same for any input: a physics step touches neither. *)
Lemma input_gate (i : input) (self : Go1Runner) :
  well_formed self →
  (_enter_toggled (after i self), mode_toggle (after i self))
  = if is_enter_press i && is_False (_enter_toggled self)
    then (PyBool true, flipped <$> mode_toggle self)
    else if is_enter_release i
         then (PyBool false, mode_toggle self)
         else (_enter_toggled self, mode_toggle self).
Proof.
  intros Hwf. destruct i as [event|step_size].
  - rewrite after_keyboard. by apply keyboard_gate.
  - unfold after, mode_toggle, deliver.
    by rewrite physics_keeps_enter_toggled, physics_keeps_base_command.
Qed.

Lemma is_False_spec (v : pyval) : is_False v = true ↔ v = PyBool false.
Proof. destruct v as [| |[]]; cbn [is_False]; split; congruence. Qed.

Lemma is_enter_press_spec (i : input) :
  is_enter_press i = true ↔ i = Keyboard (press "ENTER").
Proof.
  destruct i; cbn [is_enter_press]; [|done].
  rewrite bool_decide_eq_true. split; congruence.
Qed.

Lemma is_enter_release_spec (i : input) :
  is_enter_release i = true ↔ i = Keyboard (release "ENTER").
Proof.
  destruct i; cbn [is_enter_release]; [|done].
  rewrite bool_decide_eq_true. split; congruence.
Qed.

Lemma mode_toggle_binary (self : Go1Runner) :
  well_formed self →
  mode_toggle self = Some (PyInt 0) ∨ mode_toggle self = Some (PyInt 1).
Proof.
  intros [_ (a & b & c & d & Hc & [-> | ->]) _];
    unfold mode_toggle; rewrite Hc; auto.
Qed.

(** C3: after any setup and any sequence of inputs, one more input changes
    the fourth element of the base command only if it is an ENTER KEY_PRESS
    arriving while [_enter_toggled] is [False]; such a press flips the
    element (0 to 1, 1 to 0) and sets [_enter_toggled] to [True]; while
    [_enter_toggled] is not [False], no input other than an ENTER
    KEY_RELEASE changes the element or opens the gate; and an ENTER
    KEY_RELEASE sets [_enter_toggled] to [False]. *)
Theorem enter_toggle_gated
    (way_points : option (list ndarray)) (t : list input) (i : input) :
  let self := run t (started way_points) in
  let self' := after i self in
  (mode_toggle self' ≠ mode_toggle self →
     i = Keyboard (press "ENTER") ∧ _enter_toggled self = PyBool false)
  ∧ (i = Keyboard (press "ENTER") → _enter_toggled self = PyBool false →
     _enter_toggled self' = PyBool true
     ∧ ((mode_toggle self = Some (PyInt 0)
         ∧ mode_toggle self' = Some (PyInt 1))
        ∨ (mode_toggle self = Some (PyInt 1)
           ∧ mode_toggle self' = Some (PyInt 0))))
  ∧ (_enter_toggled self ≠ PyBool false → i ≠ Keyboard (release "ENTER") →
     _enter_toggled self' ≠ PyBool false
     ∧ mode_toggle self' = mode_toggle self)
  ∧ (i = Keyboard (release "ENTER") → _enter_toggled self' = PyBool false).
Proof.
  intros self self'.
  pose proof (reached_well_formed way_points t) as Hwf. fold self in Hwf.
  pose proof (input_gate i self Hwf) as E. fold self' in E.
  pose proof (is_False_spec (_enter_toggled self)) as HF.
  pose proof (is_enter_press_spec i) as HP.
  pose proof (is_enter_release_spec i) as HR.
  pose proof (mode_toggle_binary self Hwf) as Hlast.
  clearbody self self'. clear Hwf.
  destruct (is_enter_press i) eqn:EP, (is_False (_enter_toggled self)) eqn:EF,
    (is_enter_release i) eqn:ER; cbv [andb] in E; injection E as Etg Elast;
    destruct HP as [HP1 HP2], HR as [HR1 HR2], HF as [HF1 HF2];
    unfold press, release in *.
  all: repeat split; intros; try done; try congruence; auto;
    try (exfalso; intuition congruence).
  all: destruct Hlast as [Hzero | Hone]; [left | right];
    (split; [done|]); rewrite Elast, ?Hzero, ?Hone; done.
Qed.

(** *** The gate before the first release *)

Lemma no_release_gate_shut (t : list input) (self : Go1Runner) :
  well_formed self →
  _enter_toggled self = PyInt 0 → mode_toggle self = Some (PyInt 0) →
  existsb is_enter_release t = false →
  _enter_toggled (run t self) = PyInt 0
  ∧ mode_toggle (run t self) = Some (PyInt 0).
Proof.
  revert self. induction t as [|i t IH]; intros self Hwf Htg Hlast Hno;
    [done|].
  cbn [existsb] in Hno. apply orb_false_iff in Hno as [Hi Ht].
  rewrite run_cons. apply IH; [by apply after_well_formed| | |done];
    pose proof (input_gate i self Hwf) as E;
    rewrite Htg, Hi, andb_false_r in E; congruence.
Qed.

(** Without an ENTER press the fourth element stays, and the gate holds
    [False] from the first ENTER release on. *)
Lemma no_press_keeps_mode (t : list input) (self : Go1Runner) :
  well_formed self →
  existsb is_enter_press t = false →
  mode_toggle (run t self) = mode_toggle self
  ∧ _enter_toggled (run t self)
    = if existsb is_enter_release t then PyBool false
      else _enter_toggled self.
Proof.
  revert self. induction t as [|i t IH]; intros self Hwf Hno; [done|].
  cbn [existsb] in Hno |- *. apply orb_false_iff in Hno as [Hi Ht].
  rewrite run_cons.
  destruct (IH _ (after_well_formed i self Hwf) Ht) as [IHmode IHtg].
  pose proof (input_gate i self Hwf) as E. rewrite Hi in E. cbv [andb] in E.
  rewrite IHmode, IHtg.
  destruct (is_enter_release i); cbv [orb];
    apply pair_equal_spec in E as [Etg Emode]; rewrite Emode; split;
    [done | by destruct (existsb is_enter_release t)
    | done | by rewrite Etg].
Qed.

(** C8, as the program has it: [__init__] sets [_enter_toggled] to the
    integer 0, which is not [False]; as long as no ENTER KEY_RELEASE has been
    delivered, [_enter_toggled] is still that 0, the fourth element is 0 and
    an ENTER KEY_PRESS leaves the whole base command unchanged; an ENTER
    KEY_PRESS that changes the fourth element comes after some ENTER
    KEY_RELEASE, with [_enter_toggled] being [False]; and the first ENTER
    KEY_PRESS does change the fourth element (from 0 to 1) whenever an ENTER
    KEY_RELEASE was delivered before it. *)
Theorem enter_press_needs_release
    (way_points : option (list ndarray)) (t : list input) :
  let self := run t (started way_points) in
  let self' := after (Keyboard (press "ENTER")) self in
  (_enter_toggled __init__ = PyInt 0 ∧ is_False (PyInt 0) = false)
  ∧ (existsb is_enter_release t = false →
     _enter_toggled self = PyInt 0
     ∧ mode_toggle self = Some (PyInt 0)
     ∧ _base_command self' = _base_command self)
  ∧ (mode_toggle self' ≠ mode_toggle self →
     existsb is_enter_release t = true
     ∧ _enter_toggled self = PyBool false)
  ∧ (existsb is_enter_press t = false →
     existsb is_enter_release t = true →
     _enter_toggled self = PyBool false
     ∧ mode_toggle self = Some (PyInt 0)
     ∧ mode_toggle self' = Some (PyInt 1)).
Proof.
  intros self self'. split; [done|].
  pose proof (reached_well_formed way_points t) as Hwf. fold self in Hwf.
  assert (existsb is_enter_press t = false →
          existsb is_enter_release t = true →
          _enter_toggled self = PyBool false
          ∧ mode_toggle self = Some (PyInt 0)) as first.
  { intros Hnopress Hrel.
    destruct (no_press_keeps_mode t (started way_points)
                (started_well_formed way_points) Hnopress) as [Hmode Htg].
    fold self in Hmode, Htg. rewrite Hrel in Htg.
    split; [done|]. rewrite Hmode. by destruct way_points. }
  assert (existsb is_enter_release t = false →
          _enter_toggled self = PyInt 0
          ∧ mode_toggle self = Some (PyInt 0)) as shut.
  { intros Hno. apply no_release_gate_shut; [apply started_well_formed| | |done];
      by destruct way_points. }
  clearbody self. split; [|split].
  - intros Hno. destruct (shut Hno) as [Htg Hlast].
    split; [done|]. split; [done|].
    subst self'. rewrite after_keyboard.
    destruct Hwf as [Hm (a & b & c & d & Hc & _) _].
    destruct self as [tg bc fl m pf]; fields. subst tg bc.
    by erewrite press_enter by (done || (rewrite Hm; exact enter_unmapped)).
  - intros Hchange.
    pose proof (input_gate (Keyboard (press "ENTER")) self Hwf) as E.
    fold self' in E. cbn [is_enter_press is_enter_release] in E.
    rewrite bool_decide_eq_true_2 in E by done.
    destruct (is_False (_enter_toggled self)) eqn:EF; cbv [andb] in E.
    + apply is_False_spec in EF. split; [|done].
      destruct (existsb is_enter_release t) eqn:Hno; [done|].
      destruct (shut eq_refl) as [Htg _]. congruence.
    + rewrite bool_decide_eq_false_2 in E by done. congruence.
  - intros Hnopress Hrel. destruct (first Hnopress Hrel) as [Htg Hmode].
    split; [done|]. split; [done|].
    pose proof (input_gate (Keyboard (press "ENTER")) self Hwf) as E.
    fold self' in E. cbn [is_enter_press] in E.
    rewrite bool_decide_eq_true_2, Htg, Hmode in E by done.
    by apply pair_equal_spec in E as [_ ->].
Qed.

(** A run whose first ENTER event is a release: the first ENTER KEY_PRESS
    then flips the fourth element from 0 to 1. *)
Lemma first_enter_press_after_release_toggles :
  let t := [Keyboard (release "ENTER")] in
  let self := run t (started None) in
  existsb is_enter_press t = false
  ∧ mode_toggle self = Some (PyInt 0)
  ∧ mode_toggle (after (Keyboard (press "ENTER")) self) = Some (PyInt 1).
Proof. by vm_compute. Qed.

(** ** The event flag and the mode switch *)

Lemma not_is_Some_None {A} : ¬ is_Some (@None A).
Proof. by intros [? ?]. Qed.

Lemma sets_flag_eq (event : KeyboardEvent) (self : Go1Runner) :
  well_formed self →
  sets_flag event self
  = (bool_decide (type event = KEY_PRESS ∨ type event = KEY_RELEASE)
     && bool_decide (is_Some (_input_keyboard_mapping self !! input_name event)))
    || (bool_decide (event = press "ENTER") && is_False (_enter_toggled self)).
Proof.
  intros [Hm (a & b & c & d & Hc & Hd) Hp]. unfold sets_flag.
  destruct self as [tg bc fl m pf]; fields. subst bc.
  keyboard_cases event Hm; unfold press, release; fields; rewrite ?E.
  - by rewrite !bool_decide_eq_true_2 by eauto.
  - rewrite (bool_decide_eq_false_2 (is_Some None)) by apply not_is_Some_None.
    rewrite andb_false_r, bool_decide_eq_true_2 by done.
    by destruct (is_False tg).
  - rewrite (bool_decide_eq_false_2 (is_Some None)) by apply not_is_Some_None.
    by rewrite andb_false_r, bool_decide_eq_false_2 by congruence.
  - by rewrite !bool_decide_eq_true_2 by eauto.
  - rewrite (bool_decide_eq_false_2 (is_Some None)) by apply not_is_Some_None.
    by rewrite andb_false_r, bool_decide_eq_false_2 by congruence.
  - rewrite (bool_decide_eq_false_2 (is_Some None)) by apply not_is_Some_None.
    by rewrite andb_false_r, bool_decide_eq_false_2 by congruence.
  - rewrite (bool_decide_eq_false_2 (_ ∨ _)) by (by intros [? | ?]).
    by rewrite (bool_decide_eq_false_2 (_ = _)) by congruence.
Qed.

Lemma calls_of_cons (i : input) (t : list input) (self : Go1Runner) :
  calls_of (i :: t) self = calls (deliver i self) ++ calls_of t (after i self).
Proof. reflexivity. Qed.

Lemma keyboard_calls_nothing (event : KeyboardEvent) (self : Go1Runner) :
  well_formed self → calls (deliver (Keyboard event) self) = [].
Proof.
  intros Hwf.
  destruct (keyboard_well_formed event self Hwf) as (self' & E & _).
  unfold deliver, bind. by rewrite E.
Qed.

Lemma switch_count_bound (t : list input) (self : Go1Runner) :
  well_formed self →
  (length (List.filter is_switch (calls_of t self))
   ≤ flag_setters t self + (if _event_flag self then 1 else 0))%nat.
Proof.
  revert self. induction t as [|i t IH]; intros self Hwf;
    [cbn [calls_of List.filter length]; lia|].
  pose proof (IH _ (after_well_formed i self Hwf)) as IH'.
  rewrite calls_of_cons, List.filter_app, length_app.
  destruct i as [event|step_size]; cbn [flag_setters].
  - rewrite keyboard_calls_nothing by done.
    rewrite after_keyboard in IH' |- *. fold (sets_flag event self) in IH'.
    cbn [List.filter length].
    destruct (sets_flag event self), (_event_flag self); lia.
  - destruct (physics_well_formed step_size self Hwf) as (pf & _ & E & _).
    unfold after in IH' |- *. unfold deliver in IH' |- *.
    rewrite E in IH' |- *. fields.
    replace (_event_flag (set_event_flag false self)) with false in IH'
      by (by destruct self).
    destruct (_event_flag self); cbn [app List.filter is_switch length]; lia.
Qed.

(** C9, as the program has it: a physics step switches the robot's mode
    exactly when [_event_flag] is set at that moment, does so before it calls
    [advance], and leaves the flag cleared.  The flag after an input is
    decided by that input alone: a physics step leaves it cleared and a
    keyboard event first resets it and then sets it only for a KEY_PRESS or
    KEY_RELEASE of a key of the table or for an ENTER KEY_PRESS arriving with
    [_enter_toggled] being [False].  So a physics step switches the mode
    exactly when the input just before it was such a keyboard event, and
    over a whole run there are at most as many mode switches as keyboard
    events that set the flag. *)
Theorem mode_switch_follows_last_event
    (way_points : option (list ndarray)) (t : list input) (i : input)
    (step_size : float) :
  let start := started way_points in
  let self := run t start in
  switches step_size self = _event_flag self
  ∧ calls (on_physics_step step_size self)
    = (if _event_flag self then [SwitchMode] else [])
      ++ [Advance step_size (_base_command self)
            (bool_decide (is_Some way_points))]
  ∧ _event_flag (after (PhysicsStep step_size) self) = false
  ∧ _event_flag start = false
  ∧ _event_flag (after i self)
    = match i with
      | Keyboard event =>
          (bool_decide (type event = KEY_PRESS ∨ type event = KEY_RELEASE)
           && bool_decide
                (is_Some (_input_keyboard_mapping self !! input_name event)))
          || (bool_decide (event = press "ENTER")
              && is_False (_enter_toggled self))
      | PhysicsStep _ => false
      end
  ∧ switches step_size (after i self)
    = match i with
      | Keyboard event => sets_flag event self
      | PhysicsStep _ => false
      end
  ∧ (length (List.filter is_switch (calls_of t start))
     ≤ flag_setters t start)%nat.
Proof.
  intros start self.
  pose proof (reached_well_formed way_points t) as Hwf. fold self in Hwf.
  assert (∀ s, well_formed s → switches step_size s = _event_flag s) as Hsw.
  { intros s Hs. unfold switches.
    destruct (physics_well_formed step_size s Hs) as (pf & _ & -> & _).
    fields. by destruct (_event_flag s). }
  assert (∀ dt, _event_flag (after (PhysicsStep dt) self) = false) as Hclr.
  { intros dt. unfold after, deliver.
    destruct (physics_well_formed dt self Hwf) as (pf & _ & -> & _).
    by destruct self. }
  assert (∀ event, _event_flag (after (Keyboard event) self)
                   = sets_flag event self) as Hkey.
  { intros event. by rewrite after_keyboard. }
  assert (_event_flag start = false) as Hstart by (by destruct way_points).
  split; [by apply Hsw|]. split.
  { destruct (physics_well_formed step_size self Hwf) as (pf & Hpf & -> & _).
    fields. unfold self, start in Hpf.
    rewrite run_keeps_path_follow, started_path_follow in Hpf.
    by injection Hpf as <-. }
  split; [apply Hclr|]. split; [done|]. split.
  { destruct i as [event|dt]; [|apply Hclr].
    rewrite Hkey. by apply sets_flag_eq. }
  split.
  { rewrite Hsw by (by apply after_well_formed).
    destruct i as [event|dt]; [apply Hkey | apply Hclr]. }
  pose proof (switch_count_bound t start (started_well_formed way_points)) as H.
  rewrite Hstart in H. lia.
Qed.

(** A run in which a key of the table is pressed (the flag is set and the
    base command changes) and then an unrelated key: the physics step that
    follows does not switch the mode. *)
Lemma mode_switch_lost_to_later_event :
  let start := started None in
  let t := [Keyboard (press "UP"); Keyboard (press "A")] in
  sets_flag (press "UP") start = true
  ∧ _base_command (after (Keyboard (press "UP")) start)
    = [PyFloat 1.8; PyFloat 0; PyFloat 0; PyInt 0]
  ∧ _base_command start = [PyFloat 0; PyFloat 0; PyFloat 0; PyInt 0]
  ∧ flag_set_since_step false t start = true
  ∧ switches 0.0025 (run t start) = false.
Proof. by vm_compute. Qed.

(** ** Press and release on a keyboard that behaves *)

Lemma alternating_app (held : gset string) (t1 t2 : list input) :
  alternating held (t1 ++ t2)
  = alternating held t1 && alternating (held_after held t1) t2.
Proof.
  revert held. induction t1 as [|[event|dt] t1 IH]; intros held;
    cbn [alternating held_after app]; [done| |apply IH].
  destruct (type event); rewrite ?IH, ?andb_assoc; done.
Qed.

Lemma down_range (held : gset string) (key : string) :
  (0 ≤ down held key ≤ 1)%Z.
Proof. unfold down. destruct (decide _); lia. Qed.

Lemma down_not_in (held : gset string) (key : string) :
  key ∉ held → down held key = 0%Z.
Proof. intros H. unfold down. by destruct (decide _). Qed.

Lemma down_in (held : gset string) (key : string) :
  key ∈ held → down held key = 1%Z.
Proof. intros H. unfold down. by destruct (decide _). Qed.

Lemma down_ext (held held' : gset string) (key : string) :
  (key ∈ held ↔ key ∈ held') → down held key = down held' key.
Proof. intros H. unfold down. repeat destruct (decide _); tauto. Qed.

Lemma down_press_other (held : gset string) (key key' : string) :
  key ≠ key' → down ({[key]} ∪ held) key' = down held key'.
Proof.
  intros H. apply down_ext.
  rewrite elem_of_union, elem_of_singleton. intuition congruence.
Qed.

Lemma down_release_other (held : gset string) (key key' : string) :
  key ≠ key' → down (held ∖ {[key]}) key' = down held key'.
Proof.
  intros H. apply down_ext.
  rewrite elem_of_difference, elem_of_singleton. intuition congruence.
Qed.

Lemma down_press_same (held : gset string) (key : string) :
  down ({[key]} ∪ held) key = 1%Z.
Proof. apply down_in, elem_of_union_l, elem_of_singleton. done. Qed.

Lemma down_release_same (held : gset string) (key : string) :
  down (held ∖ {[key]}) key = 0%Z.
Proof.
  apply down_not_in. rewrite elem_of_difference, elem_of_singleton.
  intuition congruence.
Qed.

Ltac small_cases n :=
  let H := fresh in
  assert (n = -2 ∨ n = -1 ∨ n = 0 ∨ n = 1 ∨ n = 2)%Z as H by lia;
  destruct H as [-> | [-> | [-> | [-> | ->]]]].

(** Adding a table component to a level is exact. *)
Lemma level_add (s x : float) (n n' : Z) :
  s = 1.8%float ∨ s = 1%float →
  (-2 ≤ n ≤ 2)%Z → (-2 ≤ n' ≤ 2)%Z →
  (x = s ∧ n' = n + 1)%Z ∨ (x = (- s)%float ∧ n' = n - 1)%Z
  ∨ (x = 0%float ∧ n' = n) →
  (level s n + x)%float = level s n'.
Proof.
  intros Hs Hn Hn' Hx.
  destruct Hx as [[-> ->] | [[-> ->] | [-> ->]]]; destruct Hs as [-> | ->];
    small_cases n; try lia; reflexivity.
Qed.

(** So is subtracting one. *)
Lemma level_sub (s x : float) (n n' : Z) :
  s = 1.8%float ∨ s = 1%float →
  (-2 ≤ n ≤ 2)%Z → (-2 ≤ n' ≤ 2)%Z →
  (x = s ∧ n' = n - 1)%Z ∨ (x = (- s)%float ∧ n' = n + 1)%Z
  ∨ (x = 0%float ∧ n' = n) →
  (level s n - x)%float = level s n'.
Proof.
  intros Hs Hn Hn' Hx.
  destruct Hx as [[-> ->] | [[-> ->] | [-> ->]]]; destruct Hs as [-> | ->];
    small_cases n; try lia; reflexivity.
Qed.

Lemma command_of_held_ext (held held' : gset string) :
  (∀ key, is_Some ((list_to_map keyboard_table : gmap string (list float))
                     !! key) → key ∈ held ↔ key ∈ held') →
  command_of_held held = command_of_held held'.
Proof.
  intros H. unfold command_of_held.
  by rewrite !(down_ext held held')
    by (apply H; eexists; vm_compute; reflexivity).
Qed.

Lemma unmapped_not_table_key (name key : string) :
  (list_to_map keyboard_table : gmap string (list float)) !! name = None →
  is_Some ((list_to_map keyboard_table : gmap string (list float)) !! key) →
  name ≠ key.
Proof. intros Hn [v Hk] ->. congruence. Qed.

Lemma command_of_held_press_unmapped (held : gset string) (name : string) :
  (list_to_map keyboard_table : gmap string (list float)) !! name = None →
  command_of_held ({[name]} ∪ held) = command_of_held held.
Proof.
  intros Hn. apply command_of_held_ext. intros key Hk.
  pose proof (unmapped_not_table_key name key Hn Hk).
  rewrite elem_of_union, elem_of_singleton. intuition congruence.
Qed.

Lemma command_of_held_release_unmapped (held : gset string) (name : string) :
  (list_to_map keyboard_table : gmap string (list float)) !! name = None →
  command_of_held (held ∖ {[name]}) = command_of_held held.
Proof.
  intros Hn. apply command_of_held_ext. intros key Hk.
  pose proof (unmapped_not_table_key name key Hn Hk).
  rewrite elem_of_difference, elem_of_singleton. intuition congruence.
Qed.

(** Records that every [down h k] of the goal is 0 or 1. *)
Ltac down_bounds :=
  repeat match goal with
    | |- context [down ?h ?k] =>
        lazymatch goal with
        | _ : (0 ≤ down h k ≤ 1)%Z |- _ => fail
        | _ => pose proof (down_range h k)
        end
    end.

Ltac down_moved :=
  rewrite ?down_press_same, ?down_release_same,
    ?down_press_other, ?down_release_other by done.

(** Closes one axis: the level moves with the key that went down or up. *)
Ltac level_axis lem Hheld :=
  apply lem;
  [ auto
  | down_bounds; lia
  | down_moved; down_bounds; lia
  | down_moved; rewrite ?Hheld;
    first [ left; split; [reflexivity | lia]
          | right; left; split; [reflexivity | lia]
          | right; right; split; [reflexivity | lia] ] ].

Lemma press_command_of_held (held : gset string) (name : string) a b c x y z :
  (name, [x; y; z]) ∈ keyboard_table → name ∉ held →
  [PyFloat a; PyFloat b; PyFloat c] = command_of_held held →
  [PyFloat (a + x); PyFloat (b + y); PyFloat (c + z)]
  = command_of_held ({[name]} ∪ held).
Proof.
  intros Hin Hheld%down_not_in Hc. unfold command_of_held in *.
  injection Hc as -> -> ->. unfold keyboard_table in Hin.
  elem_cases Hin; injection Hin as -> -> -> ->;
    (f_equal; [|f_equal; [|f_equal]]); f_equal;
    level_axis level_add Hheld.
Qed.

Lemma release_command_of_held (held : gset string) (name : string)
    a b c x y z :
  (name, [x; y; z]) ∈ keyboard_table → name ∈ held →
  [PyFloat a; PyFloat b; PyFloat c] = command_of_held held →
  [PyFloat (a - x); PyFloat (b - y); PyFloat (c - z)]
  = command_of_held (held ∖ {[name]}).
Proof.
  intros Hin Hheld%down_in Hc. unfold command_of_held in *.
  injection Hc as -> -> ->. unfold keyboard_table in Hin.
  elem_cases Hin; injection Hin as -> -> -> ->;
    (f_equal; [|f_equal; [|f_equal]]); f_equal;
    level_axis level_sub Hheld.
Qed.

(** One keyboard event keeps elements 0..2 in step with the keys down. *)
Lemma keyboard_command_of_held (event : KeyboardEvent) (held : gset string)
    (self : Go1Runner) :
  well_formed self →
  take 3 (_base_command self) = command_of_held held →
  let self' := self_after (_sub_keyboard_event event self) in
  match type event with
  | KEY_PRESS =>
      input_name event ∉ held →
      take 3 (_base_command self')
      = command_of_held ({[input_name event]} ∪ held)
  | KEY_RELEASE =>
      input_name event ∈ held →
      take 3 (_base_command self')
      = command_of_held (held ∖ {[input_name event]})
  | _ => take 3 (_base_command self') = command_of_held held
  end.
Proof.
  intros [Hm (a & b & c & d & Hc & Hd) Hp] Hheld.
  destruct self as [tg bc fl m pf]; fields. subst bc.
  cbn [take] in Hheld.
  keyboard_cases event Hm; unfold press, release; fields.
  - intros Hout. rewrite Hm in E. apply table_lookup in E.
    by apply press_command_of_held.
  - intros _. rewrite command_of_held_press_unmapped by apply enter_unmapped.
    by destruct (is_False tg).
  - intros _. rewrite Hm in E.
    by rewrite command_of_held_press_unmapped.
  - intros Hin. rewrite Hm in E. apply table_lookup in E.
    by apply release_command_of_held.
  - intros _.
    by rewrite command_of_held_release_unmapped by apply enter_unmapped.
  - intros _. rewrite Hm in E.
    by rewrite command_of_held_release_unmapped.
  - by destruct ty.
Qed.

Lemma alternating_command_of_held (t : list input) (held : gset string)
    (self : Go1Runner) :
  well_formed self →
  take 3 (_base_command self) = command_of_held held →
  alternating held t = true →
  take 3 (_base_command (run t self)) = command_of_held (held_after held t).
Proof.
  revert held self.
  induction t as [|[event|dt] t IH]; intros held self Hwf Hheld Halt; [done|..];
    rewrite run_cons; cbn [alternating held_after] in Halt |- *.
  - pose proof (keyboard_command_of_held event held self Hwf Hheld) as Hstep.
    pose proof (after_well_formed (Keyboard event) self Hwf) as Hwf'.
    rewrite after_keyboard in Hwf' |- *.
    destruct (type event).
    + apply andb_true_iff in Halt as [Hout%bool_decide_eq_true Halt].
      by apply IH; [|apply Hstep|].
    + apply andb_true_iff in Halt as [Hin%bool_decide_eq_true Halt].
      by apply IH; [|apply Hstep|].
    + by apply IH.
    + by apply IH.
  - apply IH; [by apply after_well_formed| |done].
    unfold after, deliver. by rewrite physics_keeps_base_command.
Qed.

Lemma command_of_nothing_held :
  command_of_held ∅ = [PyFloat 0; PyFloat 0; PyFloat 0].
Proof. reflexivity. Qed.

Lemma started_command (way_points : option (list ndarray)) :
  take 3 (_base_command (started way_points)) = command_of_held ∅.
Proof. by destruct way_points. Qed.

Lemma command_of_held_press_release (held : gset string) (key : string) :
  key ∉ held →
  command_of_held (({[key]} ∪ held) ∖ {[key]}) = command_of_held held.
Proof.
  intros Hout. apply command_of_held_ext. intros k _.
  rewrite elem_of_difference, elem_of_union, elem_of_singleton.
  split; [tauto|]. intros Hk. split; [tauto|]. by intros ->.
Qed.

(** C1, as the program has it: for a key of the table, a KEY_PRESS replaces
    elements 0..2 of the base command by their binary64 sums with the key's
    vector and a KEY_RELEASE by their binary64 differences, the rest of the
    command staying as it is; and in a run where every key alternates
    presses and releases, starting with a press, a press followed by the
    matching release leaves elements 0..2 exactly as they were. *)
Theorem press_then_release
    (way_points : option (list ndarray)) (t : list input)
    (key : string) (v : list float) :
  let self := run t (started way_points) in
  let pressed := after (Keyboard (press key)) self in
  let released := after (Keyboard (release key)) pressed in
  _input_keyboard_mapping self !! key = Some v →
  length v = 3%nat
  ∧ _base_command pressed
    = (PyFloat <$> zip_with PrimFloat.add
                     (np_float64 <$> take 3 (_base_command self)) v)
      ++ drop 3 (_base_command self)
  ∧ _base_command (after (Keyboard (release key)) self)
    = (PyFloat <$> zip_with PrimFloat.sub
                     (np_float64 <$> take 3 (_base_command self)) v)
      ++ drop 3 (_base_command self)
  ∧ _base_command released
    = (PyFloat <$> zip_with PrimFloat.sub
                     (np_float64 <$> take 3 (_base_command pressed)) v)
      ++ drop 3 (_base_command pressed)
  ∧ (alternating ∅ (t ++ [Keyboard (press key); Keyboard (release key)])
     = true →
     take 3 (_base_command released) = take 3 (_base_command self)).
Proof.
  intros self pressed released Hv.
  pose proof (reached_well_formed way_points t) as Hwf. fold self in Hwf.
  assert (alternating ∅ (t ++ [Keyboard (press key); Keyboard (release key)])
          = true →
          (key ∉ held_after ∅ t)
          ∧ take 3 (_base_command self) = command_of_held (held_after ∅ t))
    as Hheld.
  { rewrite alternating_app. cbn [alternating type input_name press release].
    intros H. apply andb_true_iff in H as [Halt H].
    apply andb_true_iff in H as [Hout _].
    apply bool_decide_eq_true in Hout. split; [done|].
    apply alternating_command_of_held;
      [apply started_well_formed | apply started_command | done]. }
  subst pressed released. rewrite !after_keyboard.
  clearbody self. destruct Hwf as [Hm (a & b & c & d & Hc & _) _].
  destruct self as [tg bc fl m pf]; fields. subst bc.
  pose proof Hv as Hin. rewrite Hm in Hin.
  destruct (table_entry _ _ Hin) as [Hn (x & y & z & ->)].
  apply table_lookup in Hin.
  rewrite (press_mapped _ _ _ _ _ _ _ _ _ _ _ _ Hv Hn).
  rewrite (release_mapped _ _ _ _ _ _ _ _ _ _ _ _ Hv Hn). fields.
  rewrite (release_mapped _ _ _ _ _ _ _ _ _ _ _ _ Hv Hn). fields.
  split; [done|]. split; [done|]. split; [done|]. split; [done|].
  intros [Hout Hcmd]%Hheld. cbn [take np_float64] in Hcmd |- *.
  rewrite Hcmd, <- (command_of_held_press_release (held_after ∅ t) key Hout).
  apply release_command_of_held; [done| |].
  - apply elem_of_union_l, elem_of_singleton. done.
  - by apply press_command_of_held.
Qed.

Lemma press_then_release_witness :
  let self := run [] (started None) in
  let pressed := after (Keyboard (press "UP")) self in
  let released := after (Keyboard (release "UP")) pressed in
  _input_keyboard_mapping self !! "UP" = Some [1.8; 0; 0]%float
  ∧ _base_command pressed = [PyFloat 1.8; PyFloat 0; PyFloat 0; PyInt 0]
  ∧ take 3 (_base_command released) = take 3 (_base_command self).
Proof.
  intros self pressed released.
  assert (_input_keyboard_mapping self !! "UP" = Some [1.8; 0; 0]%float)
    as Hv by (by vm_compute).
  destruct (press_then_release None [] "UP" [1.8; 0; 0]%float Hv)
    as (_ & Hpress & _ & _ & Hround).
  split; [exact Hv|]. split; [exact Hpress|].
  apply Hround. by vm_compute.
Defined.

(** With both forward keys down, a press of UP that is not preceded by its
    release takes element 0 from 3.6 to 5.4 (rounded), and the release
    brings it back to 3.6000000000000005, which is not 3.6. *)
Lemma press_release_drift :
  let t := [Keyboard (press "UP"); Keyboard (press "NUMPAD_8")] in
  let self := run t (started None) in
  let pressed := after (Keyboard (press "UP")) self in
  let released := after (Keyboard (release "UP")) pressed in
  _input_keyboard_mapping self !! "UP" = Some [1.8; 0; 0]%float
  ∧ take 3 (_base_command self) = [PyFloat 3.6; PyFloat 0; PyFloat 0]
  ∧ take 3 (_base_command released)
    = [PyFloat 3.6000000000000005; PyFloat 0; PyFloat 0]
  ∧ PrimFloat.eqb 3.6000000000000005 3.6 = false
  ∧ take 3 (_base_command released) ≠ take 3 (_base_command self).
Proof.
  intros t self pressed released.
  repeat (split; [by vm_compute|]).
  intros H.
  apply (f_equal (λ l, match l with
                       | PyFloat x :: _ => PrimFloat.eqb x 3.6
                       | _ => true
                       end)) in H.
  vm_compute in H. discriminate.
Qed.

(** ** [main] and the waypoint file *)

Lemma launch_eq (way_points : option (list ndarray)) (sim : simulator) :
  launch way_points sim
  = let built :=
      Construct physics_downtime (16 * physics_downtime)%float way_points in
    if constructor_fails sim
    then (Ended (Raised TypeError), [built])
    else match (run_loop (running sim)).2 with
         | Stopped _ =>
             (Ended (Returned tt),
              [ built; AppUpdate; Setup way_points; WorldReset; WorldReset;
                Run; AppClose ])
         | StillRunning =>
             (InRunLoop,
              [ built; AppUpdate; Setup way_points; WorldReset; WorldReset;
                Run ])
         end.
Proof.
  unfold launch, constructor_fails, construct, spawn_scene, str_add.
  destruct (assets_root sim) as [root|], (warehouse_valid sim);
    cbn [fst snd negb];
    rewrite ?bool_decide_eq_true_2 by done;
    rewrite ?bool_decide_eq_false_2 by done;
    cbv [andb]; try done;
    by destruct ((run_loop (running sim)).2).
Qed.

(** C5: with a waypoint path given, if opening the file raises
    [FileNotFoundError] then [main] prints the path and the error message,
    closes the application and returns: no runner is built or set up and the
    simulation is not run.  No other exception is handled: when reading the
    waypoints raises anything else, [main] raises it too, having done nothing
    but print the path. *)
Theorem file_not_found_is_the_only_handler
    (np_array : array_builder) (path : string) (fs : filesystem)
    (sim : simulator) :
  path ≠ "" →
  (fs path = Raised FileNotFoundError →
   main np_array (Some path) fs sim
   = (Ended (Returned tt),
      [Print path; Print "error file not found, ending"; AppClose]))
  ∧ (∀ e, e ≠ FileNotFoundError →
       (fs path = Raised e
        ∨ fs path = Returned (Raised e)
        ∨ load_waypoints np_array fs path = Raised e) →
       main np_array (Some path) fs sim = (Ended (Raised e), [Print path])).
Proof.
  intros Hpath. unfold main. destruct (decide (path = "")) as [|_]; [done|].
  split.
  - intros Hfs. unfold load_waypoints. by rewrite Hfs.
  - intros e He Hfail.
    assert (load_waypoints np_array fs path = Raised e) as ->.
    { destruct Hfail as [Hfs | [Hfs | Hload]]; [| |done];
        unfold load_waypoints; by rewrite Hfs. }
    by destruct e.
Qed.

Lemma file_not_found_is_the_only_handler_witness :
  "waypoints.json" ≠ ""
  ∧ main scalar_array_builder (Some "waypoints.json")
      (λ _, Raised FileNotFoundError)
      (mkSimulator None false "/home/user/isaac_ws" [])
    = (Ended (Returned tt),
       [Print "waypoints.json"; Print "error file not found, ending";
        AppClose]).
Proof.
  split; [done|].
  apply (file_not_found_is_the_only_handler scalar_array_builder
           "waypoints.json" (λ _, Raised FileNotFoundError)); done.
Defined.

Lemma waypoint_array_record (np_array : array_builder) (r : json) :
  builds_scalar_arrays np_array →
  is_waypoint_record r = true →
  waypoint_array np_array r = Returned (spec_waypoint_pose r).
Proof.
  intros Hnp. unfold is_waypoint_record, spec_waypoint_pose, waypoint_array.
  destruct r as [| | | | | |members]; try done.
  cbn [record_fields json_getitem].
  destruct (members_get "x" members) as [x|]; [|done].
  destruct (members_get "y" members) as [y|]; [|done].
  destruct (members_get "rad" members) as [rad|]; [|done].
  cbn [mbind outcome_bind option_bind]. intros Hscalar.
  apply Hnp. cbn [existsb].
  by destruct (is_nested x), (is_nested y), (is_nested rad).
Qed.


Lemma main_loaded (np_array : array_builder) (path : string) (fs : filesystem)
    (data : json) (sim : simulator) :
  path ≠ "" → fs path = Returned (Returned data) →
  main np_array (Some path) fs sim
  = match items ← json_iter data; collect_poses np_array items with
    | Returned waypoint_pose =>
        printed path (launch (Some waypoint_pose) sim)
    | Raised FileNotFoundError =>
        (Ended (Returned tt),
         [Print path; Print "error file not found, ending"; AppClose])
    | Raised e => (Ended (Raised e), [Print path])
    end.
Proof.
  intros Hpath Hfs. unfold main, load_waypoints.
  destruct (decide (path = "")) as [|_]; [done|]. by rewrite Hfs.
Qed.


Lemma scalar_array_builder_ok : builds_scalar_arrays scalar_array_builder.
Proof. by intros elems _. Qed.



(** * Further properties *)

(** ** [main] without a waypoint file *)

(** X1: with no waypoint argument, or an empty one, [main] prints nothing and
    reads no file, whatever the file system holds: it calls the constructor
    with no waypoints and raises if the constructor does; otherwise it sets
    the runner up with none, resets the world twice and runs, and it closes
    the application once [run] has returned. *)
Theorem main_without_waypoint
    (np_array np_array' : array_builder) (waypoint : option string)
    (fs fs' : filesystem) (sim : simulator) :
  waypoint_given waypoint = false →
  let built :=
    Construct physics_downtime (16 * physics_downtime)%float None in
  main np_array waypoint fs sim
  = (if constructor_fails sim
     then (Ended (Raised TypeError), [built])
     else match (run_loop (running sim)).2 with
          | Stopped _ =>
              (Ended (Returned tt),
               [ built; AppUpdate; Setup None; WorldReset; WorldReset; Run;
                 AppClose ])
          | StillRunning =>
              (InRunLoop,
               [ built; AppUpdate; Setup None; WorldReset; WorldReset; Run ])
          end)
  ∧ main np_array waypoint fs sim = main np_array' waypoint fs' sim.
Proof.
  intros Hgiven built.
  assert (∀ np f, main np waypoint f sim = launch None sim) as Hmain.
  { intros np f. unfold main. destruct waypoint as [path|]; [|done].
    cbn [waypoint_given] in Hgiven. apply bool_decide_eq_false in Hgiven.
    destruct (decide (path = "")) as [_|Hpath]; [done|].
    by destruct Hgiven. }
  split; [|by rewrite !Hmain]. by rewrite Hmain, launch_eq.
Qed.

Lemma main_without_waypoint_witness :
  let sim := mkSimulator (Some "omniverse://localhost/NVIDIA") true
               "/home/user/isaac_ws" [true; false] in
  waypoint_given (Some "") = false
  ∧ main scalar_array_builder (Some "") (λ _, Raised OSError) sim
    = (Ended (Returned tt),
       [ Construct physics_downtime (16 * physics_downtime)%float None;
         AppUpdate; Setup None; WorldReset; WorldReset; Run; AppClose ]).
Proof.
  intros sim.
  assert (waypoint_given (Some "") = false) as H by (by vm_compute).
  split; [exact H|].
  exact (proj1 (main_without_waypoint scalar_array_builder
                  scalar_array_builder (Some "") (λ _, Raised OSError)
                  (λ _, Raised OSError) sim H)).
Defined.

(** ** How [main] can end *)

Lemma main_cases (np_array : array_builder) (waypoint : option string)
    (fs : filesystem) (sim : simulator) :
  (∃ way_points,
     bool_decide (is_Some way_points) = waypoint_given waypoint
     ∧ (main np_array waypoint fs sim = launch way_points sim
        ∨ ∃ path, main np_array waypoint fs sim
                  = printed path (launch way_points sim)))
  ∨ (∃ path,
       main np_array waypoint fs sim
       = (Ended (Returned tt),
          [Print path; Print "error file not found, ending"; AppClose]))
  ∨ (∃ path e, e ≠ FileNotFoundError
       ∧ main np_array waypoint fs sim = (Ended (Raised e), [Print path])).
Proof.
  unfold main. destruct waypoint as [path|].
  2:{ left. exists None. split; [|by left].
      by rewrite bool_decide_eq_false_2 by apply not_is_Some_None. }
  destruct (decide (path = "")) as [->|Hpath].
  { left. exists None. split; [|by left].
    rewrite bool_decide_eq_false_2 by apply not_is_Some_None.
    symmetry. by apply bool_decide_eq_false_2; intros []. }
  destruct (load_waypoints np_array fs path) as [waypoint_pose|e].
  - left. exists (Some waypoint_pose). split; [|right; by exists path].
    cbn [waypoint_given]. by rewrite !bool_decide_eq_true_2 by eauto.
  - right. destruct e;
      (by left; exists path)
      || (right; eexists path, _; split; [|reflexivity]; done).
Qed.

(** X2: [main] closes the application exactly once, as its last action,
    whenever it returns, and never when it raises or is still running.  It
    never lets [FileNotFoundError] escape.  When it raises, [setup] has not
    been called, and either no constructor call was made or the constructor
    call is the last action and is what raised.  At most one runner is
    built, and [setup] is only called after a constructor call that
    returned, with the waypoint list the constructor received, which is a
    list (not [None]) exactly when a waypoint path was given. *)
Theorem main_outcomes
    (np_array : array_builder) (waypoint : option string) (fs : filesystem)
    (sim : simulator) :
  let ending := (main np_array waypoint fs sim).1 in
  let actions := (main np_array waypoint fs sim).2 in
  (ending = Ended (Returned tt) →
     last actions = Some AppClose
     ∧ length (List.filter is_app_close actions) = 1%nat)
  ∧ (∀ e, ending = Ended (Raised e) →
       e ≠ FileNotFoundError
       ∧ List.filter is_app_close actions = []
       ∧ List.filter is_setup actions = []
       ∧ (List.filter is_construct actions = []
          ∨ (constructor_fails sim = true
             ∧ ∃ physics_dt render_dt way_points,
                 last actions
                 = Some (Construct physics_dt render_dt way_points))))
  ∧ (ending = InRunLoop →
       last actions = Some Run ∧ List.filter is_app_close actions = [])
  ∧ (length (List.filter is_construct actions) ≤ 1)%nat
  ∧ (∀ way_points, Setup way_points ∈ actions →
       constructor_fails sim = false
       ∧ (∃ physics_dt render_dt,
            Construct physics_dt render_dt way_points ∈ actions)
       ∧ bool_decide (is_Some way_points) = waypoint_given waypoint).
Proof.
  intros ending actions. subst ending actions.
  destruct (main_cases np_array waypoint fs sim)
    as [(wp & Hgiven & Hmain) | [[path ->] | (path & e & He & ->)]].
  - assert (∃ prefix,
              main np_array waypoint fs sim
              = ((launch wp sim).1, prefix ++ (launch wp sim).2)
              ∧ List.filter is_app_close prefix = []
              ∧ List.filter is_construct prefix = []
              ∧ List.filter is_setup prefix = []
              ∧ ∀ a, Setup a ∉ prefix)
      as (prefix & -> & Hclose & Hcons & Hsetup & Hset).
    { destruct Hmain as [-> | [path ->]].
      - exists []. split; [by destruct (launch wp sim)|].
        repeat split. intros a Hin. by apply elem_of_nil in Hin.
      - exists [Print path]. split; [done|]. repeat split.
        intros a Hin. by elem_cases Hin. }
    rewrite launch_eq. cbn [fst snd].
    rewrite !List.filter_app, !length_app, Hclose, Hcons, Hsetup.
    destruct (constructor_fails sim) eqn:Hfails;
      [|destruct ((run_loop (running sim)).2)]; cbn [fst snd].
    + split; [done|]. split.
      { intros e' [= <-]. split; [done|]. split; [done|].
        split; [done|]. right. split; [done|].
        eexists _, _, _. by rewrite last_snoc. }
      split; [done|]. split; [cbn; lia|].
      intros a Hin. apply elem_of_app in Hin as [Hin|Hin];
        [by destruct (Hset a) | by elem_cases Hin].
    + split.
      { intros _. split; [|done].
        change [?a; ?b; ?c; ?d; ?e; ?f; AppClose]
          with ([a; b; c; d; e; f] ++ [AppClose]).
        by rewrite app_assoc, last_snoc. }
      split; [done|]. split; [done|]. split; [cbn; lia|].
      intros a Hin. apply elem_of_app in Hin as [Hin|Hin];
        [by destruct (Hset a)|].
      elem_cases Hin; try done. injection Hin as ->.
      split; [done|]. split; [|done].
      eexists _, _. apply elem_of_app. right. apply list_elem_of_here.
    + split; [done|]. split; [done|]. split.
      { intros _. split; [|done].
        change [?a; ?b; ?c; ?d; ?e; Run] with ([a; b; c; d; e] ++ [Run]).
        by rewrite app_assoc, last_snoc. }
      split; [cbn; lia|].
      intros a Hin. apply elem_of_app in Hin as [Hin|Hin];
        [by destruct (Hset a)|].
      elem_cases Hin; try done. injection Hin as ->.
      split; [done|]. split; [|done].
      eexists _, _. apply elem_of_app. right. apply list_elem_of_here.
  - cbn [fst snd]. split; [done|]. split; [done|]. split; [done|].
    split; [cbn; lia|]. intros a Hin. by elem_cases Hin.
  - cbn [fst snd]. split; [done|]. split.
    { intros e' [= <-]. split; [done|]. split; [done|]. split; [done|].
      by left. }
    split; [done|]. split; [cbn; lia|]. intros a Hin. by elem_cases Hin.
Qed.

(** ** Waypoint files that are not a list of records *)

(** X3: a waypoint file that holds an empty list (or an empty object, or an
    empty string) gives an empty waypoint list, and [main] goes on with it:
    the constructor is called with the empty list and, when it returns, so
    is [setup]; since [setup] only tests for [None], path following is then
    switched on with no waypoint to follow. *)
Theorem empty_waypoint_file_enables_path_follow
    (np_array : array_builder) (path : string) (fs : filesystem)
    (data : json) (sim : simulator) :
  path ≠ "" →
  fs path = Returned (Returned data) →
  data = JArray [] ∨ data = JObject [] ∨ data = JString "" →
  let built :=
    Construct physics_downtime (16 * physics_downtime)%float (Some []) in
  main np_array (Some path) fs sim
  = (if constructor_fails sim
     then (Ended (Raised TypeError), [Print path; built])
     else match (run_loop (running sim)).2 with
          | Stopped _ =>
              (Ended (Returned tt),
               [ Print path; built; AppUpdate; Setup (Some []); WorldReset;
                 WorldReset; Run; AppClose ])
          | StillRunning =>
              (InRunLoop,
               [ Print path; built; AppUpdate; Setup (Some []); WorldReset;
                 WorldReset; Run ])
          end)
  ∧ _path_follow (setup (Some []) __init__) = Some true
  ∧ _path_follow (setup None __init__) = Some false.
Proof.
  intros Hpath Hfs Hdata built. split; [|done].
  rewrite (main_loaded np_array path fs data sim Hpath Hfs).
  assert ((items ← json_iter data; collect_poses np_array items)
          = Returned []) as -> by (by destruct Hdata as [-> | [-> | ->]]).
  rewrite launch_eq. unfold printed.
  destruct (constructor_fails sim); [done|].
  by destruct ((run_loop (running sim)).2).
Qed.

Lemma empty_waypoint_file_enables_path_follow_witness :
  let sim := mkSimulator (Some "omniverse://localhost/NVIDIA") false
               "/home/user/isaac_ws" [false] in
  main scalar_array_builder (Some "wp.json")
    (λ _, Returned (Returned (JArray []))) sim
  = (Ended (Returned tt),
     [ Print "wp.json";
       Construct physics_downtime (16 * physics_downtime)%float (Some []);
       AppUpdate; Setup (Some []); WorldReset; WorldReset; Run; AppClose ]).
Proof.
  intros sim. assert ("wp.json" ≠ "") as Hpath by done.
  exact (proj1 (empty_waypoint_file_enables_path_follow scalar_array_builder
                  "wp.json" (λ _, Returned (Returned (JArray []))) (JArray [])
                  sim Hpath eq_refl (or_introl eq_refl))).
Defined.

(** The exception raised in the loop by a record that is not an object with
    the three members. *)
Lemma waypoint_array_bad_record (np_array : array_builder) (r : json) :
  record_fields r = None →
  waypoint_array np_array r
  = Raised match r with
           | JObject _ => KeyError
           | _ => TypeError
           end.
Proof.
  unfold waypoint_array.
  destruct r as [| | | | | |members]; try done.
  cbn [record_fields json_getitem].
  destruct (members_get "x" members) as [x|]; [|done].
  destruct (members_get "y" members) as [y|]; [|done].
  by destruct (members_get "rad" members) as [rad|].
Qed.

Lemma collect_poses_bad_record (np_array : array_builder)
    (good rest : list json) (r : json) (e : exn) :
  builds_scalar_arrays np_array →
  forallb is_waypoint_record good = true →
  waypoint_array np_array r = Raised e →
  collect_poses np_array (good ++ r :: rest) = Raised e.
Proof.
  intros Hnp Hgood Hr. induction good as [|g good IH];
    cbn [app collect_poses forallb] in *.
  - by rewrite Hr.
  - apply andb_true_iff in Hgood as [Hg Hgood].
    by rewrite (waypoint_array_record np_array g Hnp Hg), (IH Hgood).
Qed.

(** X4: when the JSON list holds, after any number of good records, a record
    that is not an object or that lacks one of the members [x], [y] and
    [rad], [main] raises after having only printed the path: [TypeError]
    for a record that is no object, [KeyError] for a missing member.  The
    constructor is not called and the application is not closed; the
    records after the bad one are not looked at. *)
Theorem bad_waypoint_record_aborts_main
    (np_array : array_builder) (path : string) (fs : filesystem)
    (good rest : list json) (r : json) (sim : simulator) :
  builds_scalar_arrays np_array →
  path ≠ "" →
  fs path = Returned (Returned (JArray (good ++ r :: rest))) →
  forallb is_waypoint_record good = true →
  record_fields r = None →
  main np_array (Some path) fs sim
  = (Ended (Raised match r with
                   | JObject _ => KeyError
                   | _ => TypeError
                   end),
     [Print path]).
Proof.
  intros Hnp Hpath Hfs Hgood Hr.
  rewrite (main_loaded np_array path fs _ sim Hpath Hfs).
  cbn [json_iter mbind outcome_bind].
  rewrite (collect_poses_bad_record np_array good rest r _ Hnp Hgood
             (waypoint_array_bad_record np_array r Hr)).
  by destruct r.
Qed.

Lemma bad_waypoint_record_aborts_main_witness :
  let good := JObject [("x", JInt 1); ("y", JInt 2); ("rad", JFloat 0.5)] in
  let bad := JObject [("x", JInt 3); ("y", JInt 4)] in
  main scalar_array_builder (Some "wp.json")
    (λ _, Returned (Returned (JArray [good; bad; good])))
    (mkSimulator None false "/home/user/isaac_ws" [])
  = (Ended (Raised KeyError), [Print "wp.json"]).
Proof.
  intros good bad.
  assert ("wp.json" ≠ "") as Hpath by done.
  assert (forallb is_waypoint_record [good] = true) as Hgood
    by (by vm_compute).
  assert (record_fields bad = None) as Hbad by (by vm_compute).
  exact (bad_waypoint_record_aborts_main scalar_array_builder "wp.json"
           (λ _, Returned (Returned (JArray ([good] ++ bad :: [good]))))
           [good] [good] bad _ scalar_array_builder_ok Hpath eq_refl Hgood
           Hbad).
Defined.

Lemma dict_keys_nonempty (m : string * json) (ms : list (string * json)) :
  reverse (remove_dups (reverse ((m :: ms).*1))) ≠ [].
Proof.
  intros H. apply (f_equal reverse) in H. rewrite reverse_involutive in H.
  assert (m.1 ∈ remove_dups (reverse ((m :: ms).*1))) as Hin.
  { apply elem_of_remove_dups, elem_of_reverse. apply list_elem_of_here. }
  rewrite H in Hin. by apply elem_of_nil in Hin.
Qed.

Lemma collect_poses_string_first (np_array : array_builder) (s : string)
    (rest : list json) :
  collect_poses np_array (JString s :: rest) = Raised TypeError.
Proof. reflexivity. Qed.

(** X5: a waypoint file whose JSON value is not a list makes [main] raise
    [TypeError] after printing the path, with no runner built: a number,
    [true], [false] or [null] cannot be iterated, and iterating an object or
    a string yields strings, which have no member ["x"].  (The empty object
    and the empty string yield nothing and pass as an empty list.) *)
Theorem non_list_waypoint_file_raises
    (np_array : array_builder) (path : string) (fs : filesystem)
    (data : json) (sim : simulator) :
  path ≠ "" →
  fs path = Returned (Returned data) →
  (∀ items, data ≠ JArray items) → data ≠ JObject [] → data ≠ JString "" →
  main np_array (Some path) fs sim = (Ended (Raised TypeError), [Print path]).
Proof.
  intros Hpath Hfs Hlist Hobj Hstr.
  rewrite (main_loaded np_array path fs _ sim Hpath Hfs).
  destruct data as [| | | |s|items|members]; try done.
  - destruct s as [|c s]; [done|].
    cbn [json_iter mbind outcome_bind String.list_ascii_of_string fmap
         list_fmap].
    by rewrite collect_poses_string_first.
  - by destruct (Hlist items).
  - destruct members as [|m ms]; [done|].
    cbn [json_iter mbind outcome_bind].
    pose proof (dict_keys_nonempty m ms) as Hkeys.
    destruct (reverse (remove_dups (reverse ((m :: ms).*1)))) as [|k ks];
      [done|].
    cbn [fmap list_fmap]. by rewrite collect_poses_string_first.
Qed.

Lemma non_list_waypoint_file_raises_witness :
  main scalar_array_builder (Some "wp.json")
    (λ _, Returned (Returned (JObject [("x", JInt 1); ("y", JInt 2);
                                      ("rad", JInt 0)])))
    (mkSimulator None false "/home/user/isaac_ws" [])
  = (Ended (Raised TypeError), [Print "wp.json"]).
Proof.
  assert ("wp.json" ≠ "") as Hpath by done.
  apply (non_list_waypoint_file_raises scalar_array_builder "wp.json" _
           (JObject [("x", JInt 1); ("y", JInt 2); ("rad", JInt 0)]) _ Hpath
           eq_refl); done.
Defined.

(** ** The robot calls of a whole run *)

Lemma calls_of_count (t : list input) (self : Go1Runner) (pf : bool) :
  well_formed self → _path_follow self = Some pf →
  length (List.filter is_advance (calls_of t self))
  = length (List.filter is_physics_step t)
  ∧ ∀ c pf', c ∈ calls_of t self → advance_path_follow c = Some pf' →
             pf' = pf.
Proof.
  revert self. induction t as [|i t IH]; intros self Hwf Hpf.
  { split; [done|]. intros c pf' Hin. by apply elem_of_nil in Hin. }
  rewrite calls_of_cons, List.filter_app, length_app.
  assert (_path_follow (after i self) = Some pf) as Hpf'.
  { unfold after. by rewrite deliver_keeps_path_follow. }
  destruct (IH _ (after_well_formed i self Hwf) Hpf') as [IHn IHpf].
  destruct i as [event|step_size]; cbn [List.filter is_physics_step length].
  - rewrite keyboard_calls_nothing by done. split; [by rewrite IHn|].
    intros c pf' Hin. by apply IHpf.
  - destruct (physics_well_formed step_size self Hwf) as (pf1 & Hpf1 & E & _).
    unfold deliver. rewrite E. fields.
    assert (pf1 = pf) as -> by congruence. split.
    + rewrite IHn. by destruct (_event_flag self).
    + intros c pf' Hin Hc. apply elem_of_app in Hin as [Hin|Hin];
        [|by eapply IHpf].
      destruct (_event_flag self); elem_cases Hin; subst c;
        cbn [advance_path_follow] in Hc; congruence.
Qed.

(** X6: over a whole run the robot's [advance] is called exactly once per
    physics step, the keyboard callback calls nothing on the robot, and
    every [advance] carries the same path-follow flag: true exactly when
    [setup] was given a waypoint list. *)
Theorem one_advance_per_physics_step
    (way_points : option (list ndarray)) (t : list input)
    (event : KeyboardEvent) :
  let start := started way_points in
  length (List.filter is_advance (calls_of t start))
  = length (List.filter is_physics_step t)
  ∧ calls (_sub_keyboard_event event (run t start)) = []
  ∧ ∀ c path_follow,
      c ∈ calls_of t start → advance_path_follow c = Some path_follow →
      path_follow = bool_decide (is_Some way_points).
Proof.
  intros start.
  destruct (calls_of_count t start (bool_decide (is_Some way_points))
              (started_well_formed way_points)
              (started_path_follow way_points)) as [Hn Hpf].
  split; [done|]. split; [|done].
  destruct (keyboard_well_formed event (run t start)
              (reached_well_formed way_points t)) as (self' & E & _).
  by rewrite E.
Qed.

(** ** A physics step on any runner *)

(** X7: whatever the state of the runner, a physics step writes nothing but
    [_event_flag], which is [False] afterwards, and it switches the robot's
    mode exactly when the flag was set.  It raises ([AttributeError]) exactly
    when [setup] has not yet set [_path_follow]; [advance] is then not
    called, although a pending mode switch has already been made. *)
Theorem physics_step_on_any_runner (self : Go1Runner) (step_size : float) :
  let r := on_physics_step step_size self in
  _base_command (self_after r) = _base_command self
  ∧ _enter_toggled (self_after r) = _enter_toggled self
  ∧ _input_keyboard_mapping (self_after r) = _input_keyboard_mapping self
  ∧ _path_follow (self_after r) = _path_follow self
  ∧ _event_flag (self_after r) = false
  ∧ List.filter is_switch (calls r)
    = (if _event_flag self then [SwitchMode] else [])
  ∧ match _path_follow self with
    | Some path_follow =>
        value r = Returned tt
        ∧ List.filter is_advance (calls r)
          = [Advance step_size (_base_command self) path_follow]
    | None =>
        value r = Raised AttributeError
        ∧ List.filter is_advance (calls r) = []
    end.
Proof.
  intros r. subst r. destruct self as [tg bc [] m [pf|]]; by method_unfold.
Qed.

(** ** The command of a keyboard that behaves *)

(** X8: in a run where every key alternates presses and releases, starting
    with a press, elements 0..2 of the base command depend only on which
    keys are down at the end, not on the order or the number of events that
    led there: each axis is the number of its keys down one way minus the
    number down the other way, times 1.8 (1.0 for yaw).  In particular, once
    every key is released the three elements are exactly 0.0 again. *)
Theorem command_follows_held_keys
    (way_points : option (list ndarray)) (t : list input) :
  alternating ∅ t = true →
  let self := run t (started way_points) in
  take 3 (_base_command self) = command_of_held (held_after ∅ t)
  ∧ (held_after ∅ t = ∅ →
     take 3 (_base_command self) = [PyFloat 0; PyFloat 0; PyFloat 0]).
Proof.
  intros Halt self.
  assert (take 3 (_base_command self) = command_of_held (held_after ∅ t))
    as Hcmd.
  { apply alternating_command_of_held;
      [apply started_well_formed | apply started_command | done]. }
  split; [done|]. intros Hnone. by rewrite Hcmd, Hnone.
Qed.

Lemma command_follows_held_keys_witness :
  let t := [Keyboard (press "UP"); Keyboard (press "LEFT");
            PhysicsStep 0.0025; Keyboard (release "UP");
            Keyboard (press "N"); Keyboard (release "LEFT");
            Keyboard (release "N")] in
  alternating ∅ t = true
  ∧ take 3 (_base_command (run t (started None)))
    = [PyFloat 0; PyFloat 0; PyFloat 0].
Proof.
  intros t.
  assert (alternating ∅ t = true) as Halt by (by vm_compute).
  split; [exact Halt|].
  apply (command_follows_held_keys None t Halt). by vm_compute.
Defined.

Lemma level_bound (s bound : float) (n : Z) :
  (s = 1.8%float ∧ bound = 3.6%float) ∨ (s = 1%float ∧ bound = 2%float) →
  (-2 ≤ n ≤ 2)%Z →
  PrimFloat.leb (PrimFloat.abs (level s n)) bound = true.
Proof.
  intros [[-> ->] | [-> ->]] Hn; small_cases n; reflexivity.
Qed.

(** X9: in such a run the command stays bounded: the forward and lateral
    elements are floats within [-3.6, 3.6] and the yaw element within
    [-2, 2]. *)
Theorem command_bounded
    (way_points : option (list ndarray)) (t : list input) :
  alternating ∅ t = true →
  ∃ forward lateral yaw,
    take 3 (_base_command (run t (started way_points)))
    = [PyFloat forward; PyFloat lateral; PyFloat yaw]
    ∧ PrimFloat.leb (PrimFloat.abs forward) 3.6 = true
    ∧ PrimFloat.leb (PrimFloat.abs lateral) 3.6 = true
    ∧ PrimFloat.leb (PrimFloat.abs yaw) 2 = true.
Proof.
  intros Halt.
  rewrite (alternating_command_of_held t ∅ (started way_points)
             (started_well_formed way_points) (started_command way_points)
             Halt).
  unfold command_of_held. eexists _, _, _. split; [done|].
  repeat split; apply level_bound; auto; down_bounds; lia.
Qed.

Lemma command_bounded_witness :
  ∃ forward lateral yaw,
    take 3 (_base_command
              (run [Keyboard (press "UP"); Keyboard (press "NUMPAD_8")]
                   (started None)))
    = [PyFloat forward; PyFloat lateral; PyFloat yaw]
    ∧ PrimFloat.leb (PrimFloat.abs forward) 3.6 = true
    ∧ PrimFloat.leb (PrimFloat.abs lateral) 3.6 = true
    ∧ PrimFloat.leb (PrimFloat.abs yaw) 2 = true.
Proof.
  apply (command_bounded None
           [Keyboard (press "UP"); Keyboard (press "NUMPAD_8")]).
  by vm_compute.
Defined.

(** ** ENTER and the motion keys do not interfere *)

(** X10: after any setup and inputs, a keyboard event of the ENTER key,
    whatever its type, leaves elements 0..2 of the base command as they
    were, and an event of any other key leaves [_enter_toggled] and the
    fourth element as they were. *)
Theorem enter_and_motion_keys_independent
    (way_points : option (list ndarray)) (t : list input)
    (event : KeyboardEvent) :
  let self := run t (started way_points) in
  let self' := self_after (_sub_keyboard_event event self) in
  (input_name event = "ENTER" →
     take 3 (_base_command self') = take 3 (_base_command self))
  ∧ (input_name event ≠ "ENTER" →
     _enter_toggled self' = _enter_toggled self
     ∧ mode_toggle self' = mode_toggle self).
Proof.
  intros self self'. subst self'.
  pose proof (reached_well_formed way_points t) as Hwf. fold self in Hwf.
  clearbody self. destruct Hwf as [Hm (a & b & c & d & Hc & _) _].
  destruct self as [tg bc fl m pf]; fields. subst bc.
  keyboard_cases event Hm; unfold press, release; fields;
    (split; [intros Hname | intros Hname]); try done.
  by destruct (is_False tg).
Qed.

(** ** Counting ENTER presses *)

Lemma held_after_app (held : gset string) (t1 t2 : list input) :
  held_after held (t1 ++ t2) = held_after (held_after held t1) t2.
Proof.
  revert held. induction t1 as [|[event|dt] t1 IH]; intros held;
    cbn [held_after app]; [done| |apply IH].
  by destruct (type event).
Qed.

Lemma flipped_mode_after (n : nat) :
  (1 ≤ n)%nat → flipped (mode_after n) = mode_after (S n).
Proof.
  intros Hn. unfold flipped, mode_after, py_eq_zero.
  destruct n as [|m]; [lia|]. cbn [pred].
  assert (m mod 2 = 0 ∧ S m mod 2 = 1 ∨ m mod 2 = 1 ∧ S m mod 2 = 0)%nat
    as [[-> ->] | [-> ->]]; [|done..].
  pose proof (Nat.Div0.div_mod m 2). pose proof (Nat.Div0.div_mod (S m) 2).
  pose proof (Nat.mod_upper_bound m 2). pose proof (Nat.mod_upper_bound (S m) 2).
  lia.
Qed.

Lemma enter_step (i : input) (held : gset string) (n : nat)
    (self : Go1Runner) :
  well_formed self →
  alternating held [i] = true →
  ("ENTER" ∈ held → 1 ≤ n)%nat →
  _enter_toggled self = gate_after n (bool_decide ("ENTER" ∈ held)) →
  mode_toggle self = Some (mode_after n) →
  let n' := (n + (if is_enter_press i then 1 else 0))%nat in
  let held' := held_after held [i] in
  _enter_toggled (after i self) = gate_after n' (bool_decide ("ENTER" ∈ held'))
  ∧ mode_toggle (after i self) = Some (mode_after n')
  ∧ ("ENTER" ∈ held' → 1 ≤ n')%nat.
Proof.
  intros Hwf Halt Hn Htg Hmode n' held'. subst n' held'.
  pose proof (input_gate i self Hwf) as E. rewrite Htg, Hmode in E.
  destruct i as [[ty name]|dt];
    cbn [is_enter_press is_enter_release alternating held_after type
         input_name] in *; unfold press, release in *.
  2:{ rewrite Nat.add_0_r. cbv [andb] in E.
      by apply pair_equal_spec in E as [E1 E2]; rewrite E1, E2. }
  destruct (decide (name = "ENTER")) as [->|Hname], ty.
  - (* ENTER pressed *)
    apply andb_true_iff in Halt as [Hout%bool_decide_eq_true _].
    rewrite bool_decide_eq_true_2 in E |- * by done.
    rewrite (bool_decide_eq_false_2 ("ENTER" ∈ held)) in E by done.
    rewrite (bool_decide_eq_true_2 ("ENTER" ∈ _))
      by (apply elem_of_union_l, elem_of_singleton; done).
    rewrite (bool_decide_eq_false_2 (_ = _)) in E by done.
    unfold gate_after in *. destruct (decide (n = 0%nat)) as [->|Hn0].
    + cbv [andb is_False] in E.
      apply pair_equal_spec in E as [E1 E2]; rewrite E1, E2.
      by repeat split.
    + cbv [andb is_False fmap option_fmap option_map] in E.
      apply pair_equal_spec in E as [E1 E2]; rewrite E1, E2.
      rewrite flipped_mode_after by lia.
      replace (n + 1)%nat with (S n) by lia.
      destruct (decide (S n = 1%nat)); [lia|]. repeat split. lia.
  - (* ENTER released *)
    apply andb_true_iff in Halt as [Hin%bool_decide_eq_true _].
    specialize (Hn Hin).
    rewrite (bool_decide_eq_false_2 (_ = _)) in E |- * by done.
    rewrite bool_decide_eq_true_2 in E by done.
    rewrite (bool_decide_eq_false_2 ("ENTER" ∈ _ ∖ _)).
    2:{ rewrite elem_of_difference, elem_of_singleton. tauto. }
    cbv [andb] in E. apply pair_equal_spec in E as [E1 E2]; rewrite E1, E2.
    rewrite Nat.add_0_r. unfold gate_after.
    destruct (decide (n = 0%nat)); [lia|]. by repeat split.
  - rewrite (bool_decide_eq_false_2 (_ = _)) in E |- * by done.
    rewrite (bool_decide_eq_false_2 (_ = _)) in E by done.
    cbv [andb] in E. apply pair_equal_spec in E as [E1 E2].
    rewrite E1, E2, Nat.add_0_r.
    by repeat split.
  - rewrite (bool_decide_eq_false_2 (_ = _)) in E |- * by done.
    rewrite (bool_decide_eq_false_2 (_ = _)) in E by done.
    cbv [andb] in E. apply pair_equal_spec in E as [E1 E2].
    rewrite E1, E2, Nat.add_0_r.
    by repeat split.
  - rewrite (bool_decide_eq_false_2 (_ = _)) in E |- * by congruence.
    rewrite (bool_decide_eq_false_2 (_ = _)) in E by congruence.
    cbv [andb] in E. apply pair_equal_spec in E as [E1 E2].
    rewrite E1, E2, Nat.add_0_r.
    rewrite (bool_decide_ext ("ENTER" ∈ {[name]} ∪ held) ("ENTER" ∈ held)).
    2:{ rewrite elem_of_union, elem_of_singleton. intuition congruence. }
    split; [done|]. split; [done|].
    rewrite elem_of_union, elem_of_singleton. intuition congruence.
  - rewrite (bool_decide_eq_false_2 (_ = _)) in E |- * by congruence.
    rewrite (bool_decide_eq_false_2 (_ = _)) in E by congruence.
    cbv [andb] in E. apply pair_equal_spec in E as [E1 E2].
    rewrite E1, E2, Nat.add_0_r.
    rewrite (bool_decide_ext ("ENTER" ∈ held ∖ {[name]}) ("ENTER" ∈ held)).
    2:{ rewrite elem_of_difference, elem_of_singleton. intuition congruence. }
    split; [done|]. split; [done|].
    rewrite elem_of_difference. tauto.
  - rewrite (bool_decide_eq_false_2 (_ = _)) in E |- * by congruence.
    rewrite (bool_decide_eq_false_2 (_ = _)) in E by congruence.
    cbv [andb] in E. apply pair_equal_spec in E as [E1 E2].
    rewrite E1, E2, Nat.add_0_r.
    by repeat split.
  - rewrite (bool_decide_eq_false_2 (_ = _)) in E |- * by congruence.
    rewrite (bool_decide_eq_false_2 (_ = _)) in E by congruence.
    cbv [andb] in E. apply pair_equal_spec in E as [E1 E2].
    rewrite E1, E2, Nat.add_0_r.
    by repeat split.
Qed.

Lemma enter_presses_cons (i : input) (t : list input) :
  enter_presses (i :: t)
  = ((if is_enter_press i then 1 else 0) + enter_presses t)%nat.
Proof. unfold enter_presses. cbn [List.filter]. by destruct (is_enter_press i). Qed.

Lemma enter_run (t : list input) (held : gset string) (n : nat)
    (self : Go1Runner) :
  well_formed self →
  alternating held t = true →
  ("ENTER" ∈ held → 1 ≤ n)%nat →
  _enter_toggled self = gate_after n (bool_decide ("ENTER" ∈ held)) →
  mode_toggle self = Some (mode_after n) →
  _enter_toggled (run t self)
  = gate_after (n + enter_presses t)
      (bool_decide ("ENTER" ∈ held_after held t))
  ∧ mode_toggle (run t self) = Some (mode_after (n + enter_presses t)).
Proof.
  revert held n self.
  induction t as [|i t IH]; intros held n self Hwf Halt Hn Htg Hmode.
  { unfold enter_presses. cbn [List.filter length held_after run fold_left].
    by rewrite Nat.add_0_r. }
  change (i :: t) with ([i] ++ t) in Halt |- *.
  rewrite alternating_app in Halt. apply andb_true_iff in Halt as [Hi Ht].
  destruct (enter_step i held n self Hwf Hi Hn Htg Hmode) as (Htg' & Hmode' & Hn').
  rewrite run_app, held_after_app.
  change ([i] ++ t) with (i :: t). rewrite enter_presses_cons, Nat.add_assoc.
  change (run [i] self) with (after i self).
  by apply IH; [apply after_well_formed|..].
Qed.

(** X11: with a keyboard that behaves, the fourth element of the base
    command after [n] ENTER presses is 0 for [n] up to 1 and then the parity of
    [n - 1]: the first press is swallowed (the gate still holds the integer 0
    of [__init__]) and every later press toggles. *)
Theorem enter_presses_toggle_parity
    (way_points : option (list ndarray)) (t : list input) :
  alternating ∅ t = true →
  mode_toggle (run t (started way_points))
  = Some (PyInt (Z.of_nat (pred (enter_presses t) mod 2))).
Proof.
  intros Halt.
  destruct (enter_run t ∅ 0 (started way_points)
              (started_well_formed way_points) Halt) as [_ Hmode];
    [by intros ?%elem_of_empty | by destruct way_points
    | by destruct way_points | done].
Qed.

Lemma enter_presses_toggle_parity_witness :
  let tap := [Keyboard (press "ENTER"); Keyboard (release "ENTER")] in
  mode_toggle (run tap (started None)) = Some (PyInt 0)
  ∧ mode_toggle (run (tap ++ tap) (started None)) = Some (PyInt 1)
  ∧ mode_toggle (run (tap ++ tap ++ tap) (started None)) = Some (PyInt 0).
Proof.
  intros tap. split; [|split].
  - apply (enter_presses_toggle_parity None tap). by vm_compute.
  - apply (enter_presses_toggle_parity None (tap ++ tap)). by vm_compute.
  - apply (enter_presses_toggle_parity None (tap ++ tap ++ tap)).
    by vm_compute.
Defined.

(** ** Building the runner *)

(** X12: the constructor fails exactly when the Isaac assets folder was not
    found and the warehouse prim is not there yet: after logging the error
    and defining the prim it raises [TypeError] (the missing root is
    concatenated with a string); no reference, no robot and no reset
    follow.  In every other case it returns the runner with the attributes
    [__init__] sets, the last two calls being the robot's addition and the
    world's reset. *)
Theorem construct_fails_without_assets_and_scene
    (physics_dt render_dt : float) (way_points : option (list ndarray))
    (assets_root_path : option string) (prim_valid : bool)
    (current_script_directory : string) :
  let r := construct physics_dt render_dt way_points assets_root_path
             prim_valid current_script_directory in
  if bool_decide (assets_root_path = None) && negb prim_valid
  then r = (Raised TypeError,
            [ NewWorld 1.0 physics_dt render_dt;
              LogError "Could not find Isaac Sim assets folder";
              DefinePrim "/World/Warehouse" "Xform" ])
  else r.1 = Returned __init__
       ∧ ∃ before robot_usd_path,
           r.2 = before
                 ++ [ AddRobot "/World/go1" "go1" robot_usd_path
                        [0; 0; 0.40]%float physics_dt "go1" way_points true;
                      ResetWorld ]
           ∧ List.filter is_add_robot before = [].
Proof.
  intros r. subst r. unfold construct, spawn_scene, str_add.
  destruct assets_root_path as [root|], prim_valid;
    cbn [negb andb fst snd app];
    rewrite ?bool_decide_eq_true_2 by done;
    rewrite ?bool_decide_eq_false_2 by done;
    cbv [andb]; try done.
  - split; [done|]. by eexists [_], _.
  - split; [done|]. by eexists [_; _; _], _.
  - split; [done|]. by eexists [_; _], _.
Qed.

(** X13: when the constructor succeeds, the scene it spawns depends on the
    prim alone and the robot on the script directory alone: the warehouse is
    referenced (once, from the assets root) only when its prim was not
    valid, and exactly one robot is added, whose model file is
    [Assets/Robots/go1.usd] under the directory of the script, whose physics
    step is the world's and whose waypoints are the constructor's argument,
    whatever the assets root is. *)
Theorem construct_scene_and_robot
    (physics_dt render_dt : float) (way_points : option (list ndarray))
    (assets_root_path : option string) (prim_valid : bool)
    (current_script_directory : string) :
  let r := construct physics_dt render_dt way_points assets_root_path
             prim_valid current_script_directory in
  r.1 = Returned __init__ →
  List.filter is_add_robot r.2
  = [ AddRobot "/World/go1" "go1"
        (path_join current_script_directory "Assets/Robots/go1.usd")
        [0; 0; 0.40]%float physics_dt "go1" way_points true ]
  ∧ List.filter is_add_reference r.2
    = match assets_root_path with
      | Some root =>
          if prim_valid then []
          else [ AddReference "/World/Warehouse"
                   (root +:+ "/Isaac/Environments/Simple_Warehouse/warehouse.usd") ]
      | None => []
      end
  ∧ head r.2 = Some (NewWorld 1.0 physics_dt render_dt)
  ∧ last r.2 = Some ResetWorld.
Proof.
  intros r. subst r. unfold construct, spawn_scene, str_add.
  by destruct assets_root_path as [root|], prim_valid.
Qed.

Lemma construct_scene_and_robot_witness :
  let r := construct 0.0025 0.04 None (Some "omniverse://localhost/NVIDIA")
             false "/home/user/isaac_ws" in
  r.1 = Returned __init__
  ∧ List.filter is_add_robot r.2
    = [ AddRobot "/World/go1" "go1" "/home/user/isaac_ws/Assets/Robots/go1.usd"
          [0; 0; 0.40]%float 0.0025 "go1" None true ].
Proof.
  intros r. assert (r.1 = Returned __init__) as H by reflexivity.
  split; [exact H|].
  exact (proj1 (construct_scene_and_robot 0.0025 0.04 None
                  (Some "omniverse://localhost/NVIDIA") false
                  "/home/user/isaac_ws" H)).
Defined.

(** ** The simulation loop *)

(** X14: [run] steps the world, always rendering, once for every [True]
    answer of [is_running] that comes before the first [False]; at the first
    [False] it stops without asking again, and as long as every answer is
    [True] it has not stopped. *)
Theorem run_loop_steps_while_running (n : nat) (rest : list bool) :
  run_loop (replicate n true ++ false :: rest)
  = (replicate n true, Stopped rest)
  ∧ run_loop (replicate n true) = (replicate n true, StillRunning).
Proof.
  induction n as [|n [IH1 IH2]]; [done|].
  cbn [replicate app run_loop]. by rewrite IH1, IH2.
Qed.
